(** * Help generator of the command package (packages/command/lib/help-generator.ts)

    A shallow embedding of [HelpGenerator] and of the JavaScript string and
    array primitives it calls, followed by the properties of the rendered help
    text.

    Modelling conventions.
    - A JavaScript string is a [string], a sequence of characters.  The
      source compares characters with the line feed, the comma and the space
      only.  [String.prototype.toUpperCase], whose case mapping is that of
      the JavaScript engine (it maps letters beyond ASCII too, some of them
      to several characters), is a parameter like the imported functions.
    - An optional property ([required?], [typeDefinition?], [depends?], ...) is
      an [option]; [None] is the JavaScript [undefined].
    - [option.default] has type [any]: it is a [JsValue], whose constructor
      [JUndefined] is what [typeof v !== 'undefined'] tests.
    - The collaborators that are imported by the source but are not part of it
      (the colour functions, [format], the argument highlighter and the table
      renderer) are parameters: a class of six style functions and a class of
      the remaining functions.  The table builder calls
      [Table.from(..).indent(..).padding(..).maxCellWidth(..)] are modelled as
      the construction of a configuration record, so that the cells and the
      configuration handed to the renderer can be stated.
    - The generator is given twice: as functions on values, on which the
      properties of the text are stated, and over a store of arrays, where
      [push] and [shift] act in place, to state what a call changes.  The
      second is shown to return the text of the first. *)

From Stdlib Require Import String Ascii List Bool Arith Lia.
Import ListNotations.
Local Open Scope list_scope.
Local Open Scope string_scope.

Set Implicit Arguments.

(** Method chaining [x.f(a).g(b)] reads [x |> f a |> g b]. *)
Notation "x |> f" := (f x) (at level 55, left associativity, only parsing).

(* ===================================================================== *)
(** ** JavaScript primitives used by the source                          *)
(* ===================================================================== *)

Module Js.

(** Values of type [any], as far as [option.default] needs them. *)
Inductive JsValue : Type :=
| JUndefined
| JNull
| JBool (b : bool)
| JNumber (n : nat)
| JString (s : string).

(** [typeof v !== 'undefined'] *)
Definition isDefined (v : JsValue) : bool :=
  match v with
  | JUndefined => false
  | _ => true
  end.

(** Truthiness of a string: [!!s]. *)
Definition truthyString (s : string) : bool :=
  match s with
  | EmptyString => false
  | String _ _ => true
  end.

(** Truthiness of [string | undefined]. *)
Definition truthy (o : option string) : bool :=
  match o with
  | Some s => truthyString s
  | None => false
  end.

(** [o || ''] for [o : string | undefined]. *)
Definition orEmpty (o : option string) : string :=
  match o with
  | Some s => if truthyString s then s else ""
  | None => ""
  end.

(** [array.join(sep)] on an array of strings. *)
Fixpoint join (sep : string) (l : list string) : string :=
  match l with
  | [] => ""
  | [x] => x
  | x :: (_ :: _) as t => x ++ sep ++ join sep t
  end.

(** [c.repeat(n)] for a one-character string. *)
Fixpoint repeat (c : ascii) (n : nat) : string :=
  match n with
  | O => ""
  | S k => String c (repeat c k)
  end.

(** [s.split(c)] for a one-character separator [c]: the pieces between the
    occurrences of [c]; the empty string gives one empty piece. *)
Fixpoint split (c : ascii) (s : string) : list string :=
  match s with
  | EmptyString => [""]
  | String a s' =>
      if Ascii.eqb a c then "" :: split c s'
      else match split c s' with
           | h :: t => String a h :: t
           | [] => [String a ""]
           end
  end.

(** [array.shift()]: the first element ([undefined] on an empty array) and
    the array that is left. *)
Definition shift (l : list string) : option string * list string :=
  match l with
  | [] => (None, [])
  | x :: t => (Some x, t)
  end.

(** String concatenation with a [string | undefined] operand. *)
Definition toStr (o : option string) : string :=
  match o with
  | Some s => s
  | None => "undefined"
  end.

Definition startsWithSpace (s : string) : bool :=
  match s with
  | String " " _ => true
  | _ => false
  end.

(** [s.split(/,? +/g)].  A separator is an optional comma followed by one
    or more spaces, matched greedily at the leftmost position.  [inSep]
    says that the previous character belonged to a separator whose run of
    spaces may still go on.  A comma that is not followed by a space is an
    ordinary character.  The pattern never matches the empty string, so the
    empty input gives one empty piece. *)
Fixpoint splitSep (inSep : bool) (s : string) : list string :=
  match s with
  | EmptyString => [""]
  | String a s' =>
      if Ascii.eqb a " " then
        if inSep then splitSep true s' else "" :: splitSep true s'
      else if Ascii.eqb a "," && startsWithSpace s' then
        "" :: splitSep true s'
      else match splitSep false s' with
           | h :: t => String a h :: t
           | [] => [String a ""]
           end
  end.

Definition splitFlags (s : string) : list string := splitSep false s.

(** [s.charAt(0)] *)
Definition charAt0 (s : string) : string :=
  match s with
  | EmptyString => ""
  | String a _ => String a ""
  end.

(** [s.slice(1)] *)
Definition slice1 (s : string) : string :=
  match s with
  | EmptyString => ""
  | String _ s' => s'
  end.

End Js.

Import Js.

(** The line feed character and the one-character string ["\n"]. *)
Definition LF : ascii := ascii_of_nat 10.
Definition nl : string := String LF "".

(* ===================================================================== *)
(** ** The table builder (packages/table/lib/table.ts, imported)         *)
(* ===================================================================== *)

Module Table.

(** [number | number[]]: one value for all columns or one per column. *)
Inductive PerColumn : Type :=
| all (n : nat)
| each (l : list nat).

(** A table under construction: its rows of cells and its settings. *)
Record t : Type := mk {
  rows : list (list string);
  getIndent : nat;
  getPadding : PerColumn;
  getMaxCellWidth : option PerColumn   (* [None]: unlimited *)
}.

(** Modelled from the spec: the defaults of the table settings, which
    table.ts (not among the sources) declares; the spec gives indent 0,
    padding 0 and an unlimited cell width. *)
Definition from (cells : list (list string)) : t :=
  mk cells 0 (all 0) None.

Definition indent (n : nat) (tb : t) : t :=
  mk (rows tb) n (getPadding tb) (getMaxCellWidth tb).

Definition padding (p : PerColumn) (tb : t) : t :=
  mk (rows tb) (getIndent tb) p (getMaxCellWidth tb).

Definition maxCellWidth (w : PerColumn) (tb : t) : t :=
  mk (rows tb) (getIndent tb) (getPadding tb) (Some w).

End Table.

(* ===================================================================== *)
(** ** Data model (packages/command/lib/types.ts, base-command.ts)        *)
(* ===================================================================== *)

(** [IOption], which extends [IFlagOptions]: the fields the generator reads. *)
Module IOption.
Record t : Type := mk {
  flags : string;
  description : string;
  typeDefinition : option string;
  required : option bool;
  default : JsValue;
  depends : option (list string);
  conflicts : option (list string)
}.
End IOption.

(** [IEnvVariable]; [D] is the type [IArgumentDetails] of its [details]. *)
Module IEnvVariable.
Record t (D : Type) : Type := mk {
  names : list string;
  details : D;
  description : string
}.
End IEnvVariable.

Module IExample.
Record t : Type := mk {
  name : string;
  description : string
}.
End IExample.

(** [BaseCommand], seen through the getters the generator calls.  The
    argument of [getOptions], [getCommands] and [getEnvVars] is their
    [hidden] flag. *)
#[warnings="-register-all"]
Inductive BaseCommand (D : Type) : Type := mkCommand {
  getName : string;
  getAliases : list string;
  getVersion : string;
  getDescription : string;
  getArgsDefinition : option string;
  getOptions : bool -> list IOption.t;
  getCommands : bool -> list (BaseCommand D);
  getEnvVars : bool -> list (IEnvVariable.t D);
  getExamples : list IExample.t
}.

(** The six style functions imported from std/fmt/colors.ts. *)
Class Colors : Type := {
  blue : string -> string;
  bold : string -> string;
  dim : string -> string;
  magenta : string -> string;
  red : string -> string;
  yellow : string -> string
}.

(** The other functions the source calls and does not define: the imported
    [format] (variadic), the two highlighters of [ArgumentsParser] and
    [Table.prototype.toString], and the built-in
    [String.prototype.toUpperCase]. *)
Class Collaborators (D : Type) : Type := {
  format : list JsValue -> string;
  highlightArguments : string -> string;
  highlightArgumentDetails : D -> string;
  toString : Table.t -> string;
  toUpperCase : string -> string
}.

(* ===================================================================== *)
(** ** HelpGenerator                                                     *)
(* ===================================================================== *)

(** An instance of the class: the field [indent] and the constructor
    parameter property [cmd]. *)
Record HelpGenerator (D : Type) : Type := mkHelpGenerator {
  indent : nat;
  cmd : BaseCommand D
}.

(** [new HelpGenerator( cmd )]: the field initialiser gives [indent = 2]. *)
Definition new {D : Type} (c : BaseCommand D) : HelpGenerator D :=
  mkHelpGenerator 2 c.

(** The first line of a description: [description.split( '\n' ).shift()]. *)
Definition firstLineOf (description : string) : string :=
  toStr (fst (shift (Js.split LF description))).

Section Generator.

Context {D : Type} `{Colors} `{Collaborators D}.

(** [capitalize] (source lines 192-194): [+] binds tighter than [??], whose
    left operand is then a string and never nullish. *)
Definition capitalize (s : string) : string :=
  toUpperCase (charAt0 s) ++ slice1 s.

(** [line] (source lines 181-183). *)
Definition line (this : HelpGenerator D) (args : list JsValue) : string :=
  (match args with
   | [] => ""
   | _ :: _ => Js.repeat " " (indent this) ++ format args
   end) ++ nl.

(** [label] (source lines 185-189). *)
Definition label (this : HelpGenerator D) (lbl : string) : string :=
  nl ++ line this [JString (bold (lbl ++ ":"))] ++ nl.

(** [hints.push( x )] guarded by [cond &&]. *)
Definition pushIf (cond : bool) (x : string) (hints : list string)
  : list string :=
  if cond then hints ++ [x] else hints.

Definition nonEmptyArray (o : option (list string)) : bool :=
  match o with
  | Some (_ :: _) => true
  | _ => false
  end.

Definition arrayOf (o : option (list string)) : list string :=
  match o with
  | Some l => l
  | None => []
  end.

Definition isTrue (o : option bool) : bool :=
  match o with
  | Some b => b
  | None => false
  end.

(** [generateHints] (source lines 166-179): [hints] is the local array,
    rebound by each guarded [push]. *)
Definition generateHints (this : HelpGenerator D) (option : IOption.t)
  : string :=
  let hints := [] in
  let hints := pushIf (isTrue (IOption.required option))
                 (yellow "required") hints in
  let hints := pushIf (isDefined (IOption.default option))
                 (blue (bold "Default: ")
                  ++ blue (format [IOption.default option])) hints in
  let hints := pushIf (nonEmptyArray (IOption.depends option))
                 (red (bold "depends: ")
                  ++ join ", " (map red (arrayOf (IOption.depends option))))
                 hints in
  let hints := pushIf (nonEmptyArray (IOption.conflicts option))
                 (red (bold "conflicts: ")
                  ++ join ", " (map red (arrayOf (IOption.conflicts option))))
                 hints in
  match hints with
  | _ :: _ => "(" ++ join ", " hints ++ ")"
  | [] => ""
  end.

(** *** Header (source lines 35-44)

    Each section method is split at its call of [toString]: the table that
    is built, and the text made of it. *)

Definition headerTable (this : HelpGenerator D) : Table.t :=
  Table.from
    [ [ bold "Usage:";
        magenta (getName (cmd this)
                 ++ (if truthy (getArgsDefinition (cmd this))
                     then " " ++ toStr (getArgsDefinition (cmd this))
                     else "")) ];
      [ bold "Version:"; yellow ("v" ++ getVersion (cmd this)) ] ]
  |> Table.indent (indent this)
  |> Table.padding (Table.all 1).

Definition generateHeader (this : HelpGenerator D) : string :=
  nl ++ toString (headerTable this).

(** *** Description (source lines 46-58) *)

Definition descriptionTable (this : HelpGenerator D) : Table.t :=
  Table.from [ [ getDescription (cmd this) ] ]
  |> Table.indent (indent this * 2)
  |> Table.maxCellWidth (Table.all 140)
  |> Table.padding (Table.all 1).

Definition generateDescription (this : HelpGenerator D) : string :=
  if negb (truthyString (getDescription (cmd this))) then ""
  else label this "Description" ++ toString (descriptionTable this).

(** *** Options (source lines 60-96) *)

Definition flagsCell (option : IOption.t) : string :=
  join ", " (map blue (splitFlags (IOption.flags option))).

Definition descriptionCell (description : string) : string :=
  red (bold "-") ++ " " ++ firstLineOf description.

(** The row of an option when some option has a type definition. *)
Definition optionRowTyped (this : HelpGenerator D) (option : IOption.t)
  : list string :=
  [ flagsCell option;
    highlightArguments (orEmpty (IOption.typeDefinition option));
    descriptionCell (IOption.description option);
    generateHints this option ].

(** The row of an option when no option has a type definition. *)
Definition optionRow (this : HelpGenerator D) (option : IOption.t)
  : list string :=
  [ flagsCell option;
    descriptionCell (IOption.description option);
    generateHints this option ].

Definition optionsHaveTypeDefinitions (options : list IOption.t) : bool :=
  existsb (fun option => truthy (IOption.typeDefinition option)) options.

Definition optionsTable (this : HelpGenerator D) : Table.t :=
  let options := getOptions (cmd this) false in
  if optionsHaveTypeDefinitions options then
    Table.from (map (optionRowTyped this) options)
    |> Table.padding (Table.each [2; 2; 2])
    |> Table.indent (indent this * 2)
    |> Table.maxCellWidth (Table.each [60; 60; 80; 60])
  else
    Table.from (map (optionRow this) options)
    |> Table.padding (Table.each [2; 2])
    |> Table.indent (indent this * 2)
    |> Table.maxCellWidth (Table.each [60; 80; 60]).

Definition generateOptions (this : HelpGenerator D) : string :=
  match getOptions (cmd this) false with
  | [] => ""
  | _ :: _ => label this "Options" ++ toString (optionsTable this)
  end.

(** *** Commands (source lines 98-130) *)

Definition namesCell (command : BaseCommand D) : string :=
  join ", " (map blue (getName command :: getAliases command)).

(** The row of a sub-command when some sub-command has an arguments
    definition. *)
Definition commandRowTyped (command : BaseCommand D) : list string :=
  [ namesCell command;
    highlightArguments (orEmpty (getArgsDefinition command));
    descriptionCell (getDescription command) ].

(** The row of a sub-command when none has an arguments definition. *)
Definition commandRow (command : BaseCommand D) : list string :=
  [ namesCell command;
    descriptionCell (getDescription command) ].

Definition commandsHaveTypeDefinitions (commands : list (BaseCommand D))
  : bool :=
  existsb (fun command => truthy (getArgsDefinition command)) commands.

Definition commandsTable (this : HelpGenerator D) : Table.t :=
  let commands := getCommands (cmd this) false in
  if commandsHaveTypeDefinitions commands then
    Table.from (map commandRowTyped commands)
    |> Table.padding (Table.each [2; 2; 2])
    |> Table.indent (indent this * 2)
  else
    Table.from (map commandRow commands)
    |> Table.padding (Table.each [2; 2])
    |> Table.indent (indent this * 2).

Definition generateCommands (this : HelpGenerator D) : string :=
  match getCommands (cmd this) false with
  | [] => ""
  | _ :: _ => label this "Commands" ++ toString (commandsTable this)
  end.

(** *** Environment variables (source lines 132-148) *)

Definition envVarRow (envVar : IEnvVariable.t D) : list string :=
  [ join ", " (map blue (IEnvVariable.names envVar));
    highlightArgumentDetails (IEnvVariable.details envVar);
    red (bold "-") ++ " " ++ IEnvVariable.description envVar ].

Definition envVarsTable (this : HelpGenerator D) : Table.t :=
  Table.from (map envVarRow (getEnvVars (cmd this) false))
  |> Table.padding (Table.all 2)
  |> Table.indent (indent this * 2).

Definition generateEnvironmentVariables (this : HelpGenerator D) : string :=
  match getEnvVars (cmd this) false with
  | [] => ""
  | _ :: _ =>
      label this "Environment variables" ++ toString (envVarsTable this)
  end.

(** *** Examples (source lines 150-164) *)

Definition exampleRow (example : IExample.t) : list string :=
  [ dim (bold (capitalize (IExample.name example) ++ ":"));
    nl ++ IExample.description example ].

Definition examplesTable (this : HelpGenerator D) : Table.t :=
  Table.from (map exampleRow (getExamples (cmd this)))
  |> Table.padding (Table.all 1)
  |> Table.indent (indent this * 2)
  |> Table.maxCellWidth (Table.all 150).

Definition generateExamples (this : HelpGenerator D) : string :=
  match getExamples (cmd this) with
  | [] => ""
  | _ :: _ => label this "Examples" ++ toString (examplesTable this)
  end.

(** *** The whole help text (source lines 13-33) *)

(** The private method [generate()]: [help] is threaded through the six
    [help += ...] statements and the final [help += '\n']. *)
Definition generateHelp (this : HelpGenerator D) : string :=
  let help := "" in
  let help := help ++ generateHeader this in
  let help := help ++ generateDescription this in
  let help := help ++ generateOptions this in
  let help := help ++ generateCommands this in
  let help := help ++ generateEnvironmentVariables this in
  let help := help ++ generateExamples this in
  let help := help ++ nl in
  help.

(** The public static method [HelpGenerator.generate( cmd )]. *)
Definition generate (c : BaseCommand D) : string :=
  generateHelp (new c).

End Generator.

(* ===================================================================== *)
(** ** The generator with its arrays in a store                          *)
(* ===================================================================== *)

(** The source mutates arrays in two places: [hints.push( .. )] in
    [generateHints] and [.shift()] on the array that [split( '\n' )]
    returns.  To state what these mutations can reach, the arrays of strings
    are placed in a store and the generator is written a second time over
    that store: the arrays of the command (aliases, names of an environment
    variable, dependencies and conflicts of an option) are references into
    the store, and every array operation of the source reads, writes or
    extends the store.  Rows, which the source hands to [Table.from] without
    calling a method on them, and the arrays of options, sub-commands,
    environment variables and examples, on which it calls [length], [find]
    and [map] only, stay values. *)

Module Heap.

Definition Ref : Type := nat.

(** The store: the array at each address. *)
Definition Store : Type := list (list string).

(** A computation over the store. *)
Definition M (A : Type) : Type := Store -> A * Store.

Definition ret {A : Type} (x : A) : M A := fun s => (x, s).

Definition bind {A B : Type} (m : M A) (k : A -> M B) : M B :=
  fun s => let (x, s') := m s in k x s'.

(** The store with the array at address [r] replaced by [l]; an address
    outside the store changes nothing. *)
Fixpoint update (r : Ref) (l : list string) (s : Store) : Store :=
  match s, r with
  | [], _ => []
  | _ :: rest, O => l :: rest
  | a :: rest, S r' => a :: update r' l rest
  end.

(** A new array: it gets the next free address. *)
Definition alloc (l : list string) : M Ref :=
  fun s => (List.length s, (s ++ [l])%list).

Definition read (r : Ref) : M (list string) :=
  fun s => (nth r s [], s).

Definition write (r : Ref) (l : list string) : M unit :=
  fun s => (tt, update r l s).

(** [array.push( x )]: appends in place and returns the new length. *)
Definition push (r : Ref) (x : string) : M nat :=
  bind (read r) (fun l =>
  bind (write r (l ++ [x])%list) (fun _ =>
  ret (S (List.length l)))).

(** [array.shift()]: removes the first element in place and returns it. *)
Definition shift (r : Ref) : M (option string) :=
  bind (read r) (fun l =>
  bind (write r (snd (Js.shift l))) (fun _ =>
  ret (fst (Js.shift l)))).

(** [array.length] *)
Definition length (r : Ref) : M nat :=
  bind (read r) (fun l => ret (List.length l)).

(** [array.map( f )]: a new array. *)
Definition map (f : string -> string) (r : Ref) : M Ref :=
  bind (read r) (fun l => alloc (List.map f l)).

(** [array.join( sep )] *)
Definition join (sep : string) (r : Ref) : M string :=
  bind (read r) (fun l => ret (Js.join sep l)).

(** [[ x, ...array ]]: a new array. *)
Definition spread (x : string) (r : Ref) : M Ref :=
  bind (read r) (fun l => alloc (x :: l)).

(** [s.split( '\n' )] and [s.split( /,? +/g )]: a new array. *)
Definition split (c : ascii) (s : string) : M Ref := alloc (Js.split c s).

Definition splitFlags (s : string) : M Ref := alloc (Js.splitFlags s).

(** [items.map( callback )] for a callback that works on the store: the
    callback runs on each item in order. *)
Fixpoint forEach {A B : Type} (callback : A -> M B) (items : list A)
  : M (list B) :=
  match items with
  | [] => ret []
  | item :: rest =>
      bind (callback item) (fun row =>
      bind (forEach callback rest) (fun rows =>
      ret (row :: rows)))
  end.

(** [cond && statement] *)
Definition when {A : Type} (cond : bool) (statement : M A) : M unit :=
  if cond then bind statement (fun _ => ret tt) else ret tt.

End Heap.

Notation "x <- m ;; k" := (Heap.bind m (fun x => k))
  (at level 61, m at next level, right associativity).

(** [IOption] with its arrays in the store. *)
Module IOptionH.
Record t : Type := mk {
  flags : string;
  description : string;
  typeDefinition : option string;
  required : option bool;
  default : JsValue;
  depends : option Heap.Ref;
  conflicts : option Heap.Ref
}.
End IOptionH.

Module IEnvVariableH.
Record t (D : Type) : Type := mk {
  names : Heap.Ref;
  details : D;
  description : string
}.
End IEnvVariableH.

(** A sub-command, seen through the four getters the generator calls on
    it. *)
Module SubCommandH.
Record t : Type := mk {
  getName : string;
  getAliases : Heap.Ref;
  getArgsDefinition : option string;
  getDescription : string
}.
End SubCommandH.

(** [BaseCommand] with its arrays in the store. *)
Module CommandH.
Record t (D : Type) : Type := mk {
  getName : string;
  getAliases : Heap.Ref;
  getVersion : string;
  getDescription : string;
  getArgsDefinition : option string;
  getOptions : bool -> list IOptionH.t;
  getCommands : bool -> list SubCommandH.t;
  getEnvVars : bool -> list (IEnvVariableH.t D);
  getExamples : list IExample.t
}.
End CommandH.

Record HelpGeneratorH (D : Type) : Type := mkHelpGeneratorH {
  indentH : nat;
  cmdH : CommandH.t D
}.

Definition newH {D : Type} (c : CommandH.t D) : HelpGeneratorH D :=
  mkHelpGeneratorH 2 c.

(** The command that a command in the store stands for: each reference is
    replaced by the array it points to.  The getters of a sub-command that
    the generator never calls answer with empty values. *)
Definition deref (s : Heap.Store) (r : Heap.Ref) : list string := nth r s [].

Definition reifyOption (s : Heap.Store) (o : IOptionH.t) : IOption.t :=
  IOption.mk (IOptionH.flags o) (IOptionH.description o)
    (IOptionH.typeDefinition o) (IOptionH.required o) (IOptionH.default o)
    (option_map (deref s) (IOptionH.depends o))
    (option_map (deref s) (IOptionH.conflicts o)).

Definition reifyEnvVar {D : Type} (s : Heap.Store) (e : IEnvVariableH.t D)
  : IEnvVariable.t D :=
  IEnvVariable.mk (deref s (IEnvVariableH.names e)) (IEnvVariableH.details e)
    (IEnvVariableH.description e).

Definition reifySubCommand {D : Type} (s : Heap.Store) (k : SubCommandH.t)
  : BaseCommand D :=
  mkCommand (SubCommandH.getName k) (deref s (SubCommandH.getAliases k)) ""
    (SubCommandH.getDescription k) (SubCommandH.getArgsDefinition k)
    (fun _ => []) (fun _ => []) (fun _ => []) [].

Definition reify {D : Type} (s : Heap.Store) (c : CommandH.t D)
  : BaseCommand D :=
  mkCommand (CommandH.getName c) (deref s (CommandH.getAliases c))
    (CommandH.getVersion c) (CommandH.getDescription c)
    (CommandH.getArgsDefinition c)
    (fun hidden => map (reifyOption s) (CommandH.getOptions c hidden))
    (fun hidden => map (reifySubCommand s) (CommandH.getCommands c hidden))
    (fun hidden => map (reifyEnvVar s) (CommandH.getEnvVars c hidden))
    (CommandH.getExamples c).

(** The references that the generator follows point into the store. *)
Definition validOption (s : Heap.Store) (o : IOptionH.t) : Prop :=
  (forall r, IOptionH.depends o = Some r -> r < List.length s)
  /\ (forall r, IOptionH.conflicts o = Some r -> r < List.length s).

Definition wellFormed {D : Type} (s : Heap.Store) (c : CommandH.t D) : Prop :=
  Forall (validOption s) (CommandH.getOptions c false)
  /\ Forall (fun k => SubCommandH.getAliases k < List.length s)
            (CommandH.getCommands c false)
  /\ Forall (fun e => IEnvVariableH.names e < List.length s)
            (CommandH.getEnvVars c false).

(** A computation that, started on a store that begins with [sigma],
    returns [v] and only adds arrays after those the store had. *)
Definition yields {A : Type} (m : Heap.M A) (v : A) (sigma : Heap.Store)
  : Prop :=
  forall t, exists t', m (sigma ++ t)%list = (v, ((sigma ++ t) ++ t')%list).

Section GeneratorOverStore.

Context {D : Type} `{Colors} `{Collaborators D}.

Definition lineH (this : HelpGeneratorH D) (args : list JsValue) : string :=
  (match args with
   | [] => ""
   | _ :: _ => Js.repeat " " (indentH this) ++ format args
   end) ++ nl.

Definition labelH (this : HelpGeneratorH D) (lbl : string) : string :=
  nl ++ lineH this [JString (bold (lbl ++ ":"))] ++ nl.

(** [generateHints] (source lines 166-179) with [hints] in the store. *)
Definition generateHintsH (this : HelpGeneratorH D) (option : IOptionH.t)
  : Heap.M string :=
  hints <- Heap.alloc [] ;;
  _ <- Heap.when (isTrue (IOptionH.required option))
         (Heap.push hints (yellow "required")) ;;
  _ <- Heap.when (isDefined (IOptionH.default option))
         (Heap.push hints
            (blue (bold "Default: ")
             ++ blue (format [IOptionH.default option]))) ;;
  _ <- match IOptionH.depends option with
       | Some depends =>
           n <- Heap.length depends ;;
           Heap.when (negb (n =? 0)%nat)
             (mapped <- Heap.map red depends ;;
              joined <- Heap.join ", " mapped ;;
              Heap.push hints (red (bold "depends: ") ++ joined))
       | None => Heap.ret tt
       end ;;
  _ <- match IOptionH.conflicts option with
       | Some conflicts =>
           n <- Heap.length conflicts ;;
           Heap.when (negb (n =? 0)%nat)
             (mapped <- Heap.map red conflicts ;;
              joined <- Heap.join ", " mapped ;;
              Heap.push hints (red (bold "conflicts: ") ++ joined))
       | None => Heap.ret tt
       end ;;
  n <- Heap.length hints ;;
  if negb (n =? 0)%nat
  then joined <- Heap.join ", " hints ;; Heap.ret ("(" ++ joined ++ ")")
  else Heap.ret "".

(** [description.split( '\n' ).shift()] *)
Definition firstLineH (description : string) : Heap.M string :=
  pieces <- Heap.split LF description ;;
  first <- Heap.shift pieces ;;
  Heap.ret (toStr first).

Definition descriptionCellH (description : string) : Heap.M string :=
  first <- firstLineH description ;;
  Heap.ret (red (bold "-") ++ " " ++ first).

(** [option.flags.split( /,? +/g ).map( flag => blue( flag ) ).join( ', ' )] *)
Definition flagsCellH (option : IOptionH.t) : Heap.M string :=
  pieces <- Heap.splitFlags (IOptionH.flags option) ;;
  mapped <- Heap.map blue pieces ;;
  Heap.join ", " mapped.

Definition optionRowTypedH (this : HelpGeneratorH D) (option : IOptionH.t)
  : Heap.M (list string) :=
  flagsCell <- flagsCellH option ;;
  cell <- descriptionCellH (IOptionH.description option) ;;
  hints <- generateHintsH this option ;;
  Heap.ret [ flagsCell;
             highlightArguments (orEmpty (IOptionH.typeDefinition option));
             cell;
             hints ].

Definition optionRowH (this : HelpGeneratorH D) (option : IOptionH.t)
  : Heap.M (list string) :=
  flagsCell <- flagsCellH option ;;
  cell <- descriptionCellH (IOptionH.description option) ;;
  hints <- generateHintsH this option ;;
  Heap.ret [ flagsCell; cell; hints ].

Definition generateHeaderH (this : HelpGeneratorH D) : Heap.M string :=
  Heap.ret
    (nl ++ toString
       (Table.from
          [ [ bold "Usage:";
              magenta (CommandH.getName (cmdH this)
                       ++ (if truthy (CommandH.getArgsDefinition (cmdH this))
                           then " " ++ toStr (CommandH.getArgsDefinition
                                                (cmdH this))
                           else "")) ];
            [ bold "Version:";
              yellow ("v" ++ CommandH.getVersion (cmdH this)) ] ]
        |> Table.indent (indentH this)
        |> Table.padding (Table.all 1))).

Definition generateDescriptionH (this : HelpGeneratorH D) : Heap.M string :=
  Heap.ret
    (if negb (truthyString (CommandH.getDescription (cmdH this))) then ""
     else labelH this "Description"
          ++ toString
               (Table.from [ [ CommandH.getDescription (cmdH this) ] ]
                |> Table.indent (indentH this * 2)
                |> Table.maxCellWidth (Table.all 140)
                |> Table.padding (Table.all 1))).

Definition generateOptionsH (this : HelpGeneratorH D) : Heap.M string :=
  let options := CommandH.getOptions (cmdH this) false in
  match options with
  | [] => Heap.ret ""
  | _ :: _ =>
      if existsb (fun option => truthy (IOptionH.typeDefinition option))
                 options
      then
        rows <- Heap.forEach (optionRowTypedH this) options ;;
        Heap.ret
          (labelH this "Options"
           ++ toString
                (Table.from rows
                 |> Table.padding (Table.each [2; 2; 2])
                 |> Table.indent (indentH this * 2)
                 |> Table.maxCellWidth (Table.each [60; 60; 80; 60])))
      else
        rows <- Heap.forEach (optionRowH this) options ;;
        Heap.ret
          (labelH this "Options"
           ++ toString
                (Table.from rows
                 |> Table.padding (Table.each [2; 2])
                 |> Table.indent (indentH this * 2)
                 |> Table.maxCellWidth (Table.each [60; 80; 60])))
  end.

(** [[ command.getName(), ...command.getAliases() ].map( .. ).join( ', ' )] *)
Definition namesCellH (command : SubCommandH.t) : Heap.M string :=
  names <- Heap.spread (SubCommandH.getName command)
             (SubCommandH.getAliases command) ;;
  mapped <- Heap.map blue names ;;
  Heap.join ", " mapped.

Definition commandRowTypedH (command : SubCommandH.t)
  : Heap.M (list string) :=
  namesCell <- namesCellH command ;;
  cell <- descriptionCellH (SubCommandH.getDescription command) ;;
  Heap.ret [ namesCell;
             highlightArguments
               (orEmpty (SubCommandH.getArgsDefinition command));
             cell ].

Definition commandRowH (command : SubCommandH.t) : Heap.M (list string) :=
  namesCell <- namesCellH command ;;
  cell <- descriptionCellH (SubCommandH.getDescription command) ;;
  Heap.ret [ namesCell; cell ].

Definition generateCommandsH (this : HelpGeneratorH D) : Heap.M string :=
  let commands := CommandH.getCommands (cmdH this) false in
  match commands with
  | [] => Heap.ret ""
  | _ :: _ =>
      if existsb (fun command => truthy (SubCommandH.getArgsDefinition command))
                 commands
      then
        rows <- Heap.forEach commandRowTypedH commands ;;
        Heap.ret
          (labelH this "Commands"
           ++ toString
                (Table.from rows
                 |> Table.padding (Table.each [2; 2; 2])
                 |> Table.indent (indentH this * 2)))
      else
        rows <- Heap.forEach commandRowH commands ;;
        Heap.ret
          (labelH this "Commands"
           ++ toString
                (Table.from rows
                 |> Table.padding (Table.each [2; 2])
                 |> Table.indent (indentH this * 2)))
  end.

Definition envVarRowH (envVar : IEnvVariableH.t D) : Heap.M (list string) :=
  mapped <- Heap.map blue (IEnvVariableH.names envVar) ;;
  namesCell <- Heap.join ", " mapped ;;
  Heap.ret [ namesCell;
             highlightArgumentDetails (IEnvVariableH.details envVar);
             red (bold "-") ++ " " ++ IEnvVariableH.description envVar ].

Definition generateEnvironmentVariablesH (this : HelpGeneratorH D)
  : Heap.M string :=
  let envVars := CommandH.getEnvVars (cmdH this) false in
  match envVars with
  | [] => Heap.ret ""
  | _ :: _ =>
      rows <- Heap.forEach envVarRowH envVars ;;
      Heap.ret
        (labelH this "Environment variables"
         ++ toString
              (Table.from rows
               |> Table.padding (Table.all 2)
               |> Table.indent (indentH this * 2)))
  end.

Definition generateExamplesH (this : HelpGeneratorH D) : Heap.M string :=
  Heap.ret
    (match CommandH.getExamples (cmdH this) with
     | [] => ""
     | _ :: _ =>
         labelH this "Examples"
         ++ toString
              (Table.from (map exampleRow (CommandH.getExamples (cmdH this)))
               |> Table.padding (Table.all 1)
               |> Table.indent (indentH this * 2)
               |> Table.maxCellWidth (Table.all 150))
     end).

Definition generateHelpH (this : HelpGeneratorH D) : Heap.M string :=
  let help := "" in
  header <- generateHeaderH this ;;
  let help := help ++ header in
  description <- generateDescriptionH this ;;
  let help := help ++ description in
  options <- generateOptionsH this ;;
  let help := help ++ options in
  commands <- generateCommandsH this ;;
  let help := help ++ commands in
  envVars <- generateEnvironmentVariablesH this ;;
  let help := help ++ envVars in
  examples <- generateExamplesH this ;;
  let help := help ++ examples in
  let help := help ++ nl in
  Heap.ret help.

(** [HelpGenerator.generate( cmd )] over the store. *)
Definition generateH (c : CommandH.t D) : Heap.M string :=
  generateHelpH (newH c).

End GeneratorOverStore.

(* ===================================================================== *)
(** ** Collaborators described by the specification                      *)
(* ===================================================================== *)

(** The escape character and the control sequence introducer. *)
Definition ESC : ascii := ascii_of_nat 27.
Definition CSI : string := String ESC "[".

(** Modelled from the spec: the style functions of std/fmt/colors.ts, which
    is not among the sources.  Each wraps its input in a style-on and a
    style-off escape sequence; with colours disabled each is the identity. *)
Definition style (enabled : bool) (on off : string) (s : string) : string :=
  if enabled then CSI ++ on ++ "m" ++ s ++ CSI ++ off ++ "m" else s.

Definition ansiColors (enabled : bool) : Colors :=
  {| blue := style enabled "34" "39";
     bold := style enabled "1" "22";
     dim := style enabled "2" "22";
     magenta := style enabled "35" "39";
     red := style enabled "31" "39";
     yellow := style enabled "33" "39" |}.

Module TableLayout.

(** Removes the style escapes [ESC [ ... m] of a line; [inEscape] says that
    the characters read belong to an escape that is still open. *)
Fixpoint stripStyle (inEscape : bool) (s : string) : string :=
  match s with
  | EmptyString => ""
  | String a s' =>
      if inEscape then
        if Ascii.eqb a "m" then stripStyle false s' else stripStyle true s'
      else if Ascii.eqb a ESC then stripStyle true s'
      else String a (stripStyle false s')
  end.

(** The single width primitive: the visible width of a line. *)
Definition visibleWidth (ln : string) : nat :=
  String.length (stripStyle false ln).

(** The visible width of a cell: the width of its longest line. *)
Definition cellWidth (cell : string) : nat :=
  list_max (map visibleWidth (Js.split LF cell)).

(** The value of a per-column setting at column [j]: a scalar holds for
    every column, an array that is too short extends its last value. *)
Definition column (p : Table.PerColumn) (j : nat) : nat :=
  match p with
  | Table.all n => n
  | Table.each l => nth j l (last l 0)
  end.

(** The wrap threshold of column [j]; 0 stands for unlimited. *)
Definition cap (tb : Table.t) (j : nat) : nat :=
  match Table.getMaxCellWidth tb with
  | None => 0
  | Some p => column p j
  end.

Definition padRight (w : nat) (ln : string) : string :=
  ln ++ Js.repeat " " (w - visibleWidth ln).

Section Engine.

(** Word wrapping of a cell that is wider than its threshold.  The spec
    describes it (whitespace breaks, hard breaks of long words, escapes
    closed and reopened at line ends); no step below looks into it. *)
Variable wordWrap : nat -> string -> list string.

(** The physical lines of a cell: only a cell wider than the threshold
    of its column is wrapped. *)
Definition cellLines (threshold : nat) (cell : string) : list string :=
  match threshold with
  | O => Js.split LF cell
  | S _ => if (cellWidth cell <=? threshold)%nat then Js.split LF cell
           else wordWrap threshold cell
  end.

Definition columnCount (tb : Table.t) : nat :=
  list_max (map (@List.length string) (Table.rows tb)).

(** A row after wrapping: the lines of each of its cells; a short row is
    completed with empty cells. *)
Definition wrapRow (tb : Table.t) (row : list string)
  : list (list string) :=
  map (fun j => cellLines (cap tb j) (nth j row ""))
      (seq 0 (columnCount tb)).

Definition wrappedRows (tb : Table.t) : list (list (list string)) :=
  map (wrapRow tb) (Table.rows tb).

(** The resolved width of column [j]: the widest line of the column. *)
Definition columnWidth (tb : Table.t) (j : nat) : nat :=
  list_max (map (fun r => list_max (map visibleWidth (nth j r [])))
                (wrappedRows tb)).

Definition rowHeight (r : list (list string)) : nat :=
  list_max (map (@List.length string) r).

(** Physical line [k] of a row: each column's line padded to the width of
    the column, followed by the gap of the column except after the last
    column, the whole prefixed by the indentation. *)
Definition renderLine (tb : Table.t) (r : list (list string)) (k : nat)
  : string :=
  Js.repeat " " (Table.getIndent tb)
  ++ String.concat ""
       (map (fun j =>
               padRight (columnWidth tb j) (nth k (nth j r []) "")
               ++ (if (S j <? columnCount tb)%nat
                   then Js.repeat " " (column (Table.getPadding tb) j)
                   else ""))
            (seq 0 (columnCount tb))).

Definition renderRow (tb : Table.t) (r : list (list string)) : string :=
  join nl (map (renderLine tb r) (seq 0 (rowHeight r))).

(** Modelled from the spec: the layout engine of packages/table, which is
    not among the sources (spec section 4.1): cells wrapped at the
    threshold of their column, rows as high as their tallest cell, lines
    padded on the right and joined by line breaks, no rows giving the
    empty string.  The optional trimming of trailing blanks is not
    applied. *)
Definition layout (tb : Table.t) : string :=
  join nl (map (renderRow tb) (wrappedRows tb)).

End Engine.

End TableLayout.

(** The collaborators with the layout engine of the specification as the
    table renderer. *)
Definition specCollaborators (D : Type)
    (fmt : list JsValue -> string) (hl : string -> string)
    (hld : D -> string) (upper : string -> string)
    (wordWrap : nat -> string -> list string)
  : Collaborators D :=
  {| format := fmt;
     highlightArguments := hl;
     highlightArgumentDetails := hld;
     toString := TableLayout.layout wordWrap;
     toUpperCase := upper |}.

(* ===================================================================== *)
(** ** The properties in the words of the specification                  *)
(* ===================================================================== *)

(** The text of a description before its first line feed. *)
Fixpoint beforeNewline (s : string) : string :=
  match s with
  | EmptyString => ""
  | String a s' => if Ascii.eqb a LF then "" else String a (beforeNewline s')
  end.

Fixpoint hasNewline (s : string) : bool :=
  match s with
  | EmptyString => false
  | String a s' => Ascii.eqb a LF || hasNewline s'
  end.

(** The lines of a text. *)
Definition lines (text : string) : list string := Js.split LF text.

(** [needle] occurs in [hay]. *)
Fixpoint includes (needle hay : string) : bool :=
  String.prefix needle hay
  || match hay with
     | EmptyString => false
     | String _ hay' => includes needle hay'
     end.

(** [text] has a line that contains [a], followed by a line that contains
    [b]. *)
Definition lineThenLine (text a b : string) : Prop :=
  exists (i : nat) (l1 l2 : string),
    nth_error (lines text) i = Some l1
    /\ nth_error (lines text) (S i) = Some l2
    /\ includes a l1 = true
    /\ includes b l2 = true.

(** A name with its first character in upper case: the upper case of the
    first character, followed by the other characters as they are. *)
Definition firstUpper {D : Type} `{Collaborators D} (s : string) : string :=
  match s with
  | EmptyString => toUpperCase ""
  | String a s' => toUpperCase (String a "") ++ s'
  end.

(** The usage text: the name, followed by a space and the arguments
    definition when there is a non-empty one. *)
Definition usageText (name : string) (args : option string) : string :=
  match args with
  | None => name
  | Some EmptyString => name
  | Some (String _ _ as a) => name ++ " " ++ a
  end.

(** An option carries a type definition, a command an arguments
    definition, when the field is present and not empty. *)
Definition present (o : option string) : Prop :=
  exists s, o = Some s /\ s <> "".

Section HintComposition.

Context {D : Type} `{Colors} `{Collaborators D}.

(** The four hints, each present or absent on its own, in the fixed
    order required, default, depends, conflicts. *)
Definition hintsInOrder (option : IOption.t) : list string :=
  (match IOption.required option with
   | Some true => [yellow "required"]
   | _ => []
   end
   ++ match IOption.default option with
      | JUndefined => []
      | v => [(blue (bold "Default: ") ++ blue (format [v]))%string]
      end
   ++ match IOption.depends option with
      | Some (d :: ds) =>
          [(red (bold "depends: ")
            ++ join ", " (map red (d :: ds)))%string]
      | _ => []
      end
   ++ match IOption.conflicts option with
      | Some (c :: cs) =>
          [(red (bold "conflicts: ")
            ++ join ", " (map red (c :: cs)))%string]
      | _ => []
      end)%list.

Definition renderHints (hints : list string) : string :=
  match hints with
  | [] => ""
  | _ :: _ => "(" ++ join ", " hints ++ ")"
  end.

End HintComposition.

(* ===================================================================== *)
(** ** Sample commands                                                   *)
(* ===================================================================== *)

Definition portOption : IOption.t :=
  IOption.mk "-p, --port" ("The port to listen on." ++ nl ++ "Must be free.")
    (Some "<port:number>") (Some true) (JNumber 0)
    (Some ["foo"]) (Some ["bar"]).

Definition helpOption : IOption.t :=
  IOption.mk "-h, --help" "Show this help." None None JUndefined None None.

Definition debugOption : IOption.t :=
  IOption.mk "--debug" "Internal." None None (JBool false) None None.

Definition installCommand : BaseCommand unit :=
  mkCommand "install" ["i"] "1.0.0"
    ("Install a package." ++ nl ++ "Fetches it from the registry.")
    (Some "<name:string>")
    (fun _ => []) (fun _ => []) (fun _ => []) [].

Definition pkgCommand : BaseCommand unit :=
  mkCommand "pkg" [] "1.0.0" "A package manager." None
    (fun hidden => if hidden then [portOption; helpOption; debugOption]
                   else [portOption; helpOption])
    (fun _ => [installCommand])
    (fun _ => [IEnvVariable.mk ["PKG_HOME"] tt "Home directory."])
    [IExample.mk "basic" "do the thing"].

(** [pkgCommand] with another answer to the queries the generator does not
    make: the aliases and the options with the hidden ones. *)
Definition pkgCommand' : BaseCommand unit :=
  mkCommand "pkg" ["p"] "1.0.0" "A package manager." None
    (fun hidden => if hidden then [portOption; helpOption]
                   else [portOption; helpOption])
    (fun _ => [installCommand])
    (fun _ => [IEnvVariable.mk ["PKG_HOME"] tt "Home directory."])
    [IExample.mk "basic" "do the thing"].

Definition bareCommand : BaseCommand unit :=
  mkCommand "bare" [] "0.1.0" "" (Some "")
    (fun _ => []) (fun _ => []) (fun _ => []) [].

(** Collaborators for the samples: colours disabled, values shown by a small
    [format], unchanged highlighting, the layout of the specification with
    cells never handed to the wrapping. *)
Definition plainFormat (args : list JsValue) : string :=
  match args with
  | [JString s] => s
  | [JNumber 0] => "0"
  | [JBool false] => "false"
  | _ => "?"
  end.

(** The upper case of the ASCII letters; other characters are left as they
    are.  It stands for [toUpperCase] in the samples, whose texts are
    ASCII. *)
Definition upperAscii (a : ascii) : ascii :=
  let n := nat_of_ascii a in
  if ((97 <=? n) && (n <=? 122))%nat then ascii_of_nat (n - 32) else a.

Fixpoint asciiUpperCase (s : string) : string :=
  match s with
  | EmptyString => ""
  | String a s' => String (upperAscii a) (asciiUpperCase s')
  end.

Definition plainCollaborators : Collaborators unit :=
  specCollaborators plainFormat (fun s => s) (fun _ => "") asciiUpperCase
    (fun _ cell => Js.split LF cell).

(* ===================================================================== *)
(** ** Notions for the further properties                                *)
(* ===================================================================== *)

Fixpoint hasSpace (s : string) : bool :=
  match s with
  | EmptyString => false
  | String a s' => Ascii.eqb a " " || hasSpace s'
  end.

Fixpoint hasComma (s : string) : bool :=
  match s with
  | EmptyString => false
  | String a s' => Ascii.eqb a "," || hasComma s'
  end.

(** None of the four hint conditions of an option holds. *)
Definition noHints (option : IOption.t) : Prop :=
  (IOption.required option = None \/ IOption.required option = Some false)
  /\ IOption.default option = JUndefined
  /\ (IOption.depends option = None \/ IOption.depends option = Some [])
  /\ (IOption.conflicts option = None \/ IOption.conflicts option = Some []).

(** Every row of a table has [n] cells. *)
Definition uniform (n : nat) (tb : Table.t) : Prop :=
  Forall (fun row => List.length row = n) (Table.rows tb).

(** Two commands with the same name, aliases, arguments definition and
    description. *)
Definition sameSummary {D : Type} (k k' : BaseCommand D) : Prop :=
  getName k = getName k'
  /\ getAliases k = getAliases k'
  /\ getArgsDefinition k = getArgsDefinition k'
  /\ getDescription k = getDescription k'.

(** [installCommand] with a version, options and examples of its own. *)
Definition installCommand' : BaseCommand unit :=
  mkCommand "install" ["i"] "2.0.0"
    ("Install a package." ++ nl ++ "Fetches it from the registry.")
    (Some "<name:string>")
    (fun _ => [portOption]) (fun _ => []) (fun _ => [])
    [IExample.mk "basic" "do the thing"].

(** A command whose only visible sub-command is [k]. *)
Definition parentOf (k : BaseCommand unit) : BaseCommand unit :=
  mkCommand "pkg" [] "1.0.0" "" None
    (fun _ => []) (fun _ => [k]) (fun _ => []) [].

Definition homeVariable : IEnvVariable.t unit :=
  IEnvVariable.mk ["PKG_HOME"] tt ("Home directory." ++ nl ++ "Must exist.").

(** [pkgCommand] with its arrays in a store: the aliases of install, the
    dependencies and the conflicts of the port option, the names of the
    environment variable and the aliases of the command itself. *)
Definition pkgStore : Heap.Store :=
  [["i"]; ["foo"]; ["bar"]; ["PKG_HOME"]; []].

Definition pkgCommandH : CommandH.t unit :=
  CommandH.mk "pkg" 4 "1.0.0" "A package manager." None
    (fun hidden =>
       [ IOptionH.mk "-p, --port"
           ("The port to listen on." ++ nl ++ "Must be free.")
           (Some "<port:number>") (Some true) (JNumber 0) (Some 1) (Some 2);
         IOptionH.mk "-h, --help" "Show this help." None None JUndefined
           None None ])
    (fun _ =>
       [ SubCommandH.mk "install" 0 (Some "<name:string>")
           ("Install a package." ++ nl ++ "Fetches it from the registry.") ])
    (fun _ => [IEnvVariableH.mk 3 tt "Home directory."])
    [IExample.mk "basic" "do the thing"].

(** The help text of the samples, colours disabled. *)
Definition plainGenerate : BaseCommand unit -> string :=
  @generate unit (ansiColors false) plainCollaborators.

(** Splits a conjunction into its parts, leaving equivalences whole. *)
Ltac split_conj :=
  repeat lazymatch goal with |- _ /\ _ => split end.

(* ===================================================================== *)
(** ** The primitives on small inputs                                    *)
(* ===================================================================== *)

Example split_empty : Js.split LF "" = [""].
Proof. reflexivity. Qed.

Example split_two_lines :
  Js.split LF ("ab" ++ nl ++ "c" ++ nl) = ["ab"; "c"; ""].
Proof. reflexivity. Qed.

Example splitFlags_samples :
  splitFlags "-h, --help" = ["-h"; "--help"]
  /\ splitFlags "-h --help" = ["-h"; "--help"]
  /\ splitFlags "-h,  --help" = ["-h"; "--help"]
  /\ splitFlags "-a,b" = ["-a,b"]
  /\ splitFlags "a ,  b" = ["a"; ""; "b"]
  /\ splitFlags "a " = ["a"; ""]
  /\ splitFlags "" = [""].
Proof. repeat split; reflexivity. Qed.

Example capitalize_samples :
  @capitalize unit plainCollaborators "basic" = "Basic"
  /\ @capitalize unit plainCollaborators "" = ""
  /\ @capitalize unit plainCollaborators "Basic" = "Basic"
  /\ @capitalize unit plainCollaborators "2nd" = "2nd".
Proof. repeat split; reflexivity. Qed.

(* ===================================================================== *)
(** ** Strings and lines                                                 *)
(* ===================================================================== *)

Lemma string_app_assoc (a b c : string) : (a ++ b) ++ c = a ++ (b ++ c).
Proof.
  induction a as [| x a IH]; simpl.
  - reflexivity.
  - now rewrite IH.
Qed.

Lemma string_app_empty_r (a : string) : a ++ "" = a.
Proof.
  induction a as [| x a IH]; simpl; [reflexivity | now rewrite IH].
Qed.

Lemma nl_app (s : string) : nl ++ s = String LF s.
Proof. reflexivity. Qed.

Lemma split_not_nil (c : ascii) (s : string) : Js.split c s <> [].
Proof.
  destruct s as [| a s]; simpl.
  - discriminate.
  - destruct (Ascii.eqb a c); [discriminate |].
    destruct (Js.split c s); discriminate.
Qed.

(** The pieces of a text whose first line is [first]. *)
Lemma split_first_line (first rest : string) :
  hasNewline first = false ->
  Js.split LF (first ++ nl ++ rest) = first :: Js.split LF rest.
Proof.
  induction first as [| a first IH]; intros Hno.
  - reflexivity.
  - simpl in Hno. apply orb_false_iff in Hno as [Ha Hfirst].
    simpl. rewrite Ha. change (String LF rest) with (nl ++ rest).
    now rewrite (IH Hfirst).
Qed.

Lemma split_single_line (s : string) :
  hasNewline s = false -> Js.split LF s = [s].
Proof.
  induction s as [| a s IH]; intros Hno.
  - reflexivity.
  - simpl in Hno. apply orb_false_iff in Hno as [Ha Hs].
    simpl. rewrite Ha. now rewrite (IH Hs).
Qed.

(** The lines of a text that ends in a line feed, followed by more text. *)
Lemma split_app_nl (a b : string) :
  Js.split LF (a ++ nl ++ b) = (Js.split LF a ++ Js.split LF b)%list.
Proof.
  induction a as [| x a IH].
  - reflexivity.
  - simpl. change (String LF b) with (nl ++ b). rewrite IH.
    destruct (Ascii.eqb x LF); [reflexivity |].
    pose proof (split_not_nil LF a) as Hne.
    destruct (Js.split LF a); [contradiction | reflexivity].
Qed.

(** [split] followed by [shift] gives the text before the first line feed. *)
Lemma firstLineOf_beforeNewline (s : string) :
  firstLineOf s = beforeNewline s.
Proof.
  unfold firstLineOf.
  induction s as [| a s IH]; simpl.
  - reflexivity.
  - destruct (Ascii.eqb a LF); [reflexivity |].
    pose proof (split_not_nil LF s) as Hne.
    destruct (Js.split LF s) as [| h t]; [contradiction |].
    simpl in *. now rewrite IH.
Qed.

Lemma beforeNewline_first_line (first rest : string) :
  hasNewline first = false -> beforeNewline (first ++ nl ++ rest) = first.
Proof.
  induction first as [| a first IH]; intros Hno.
  - reflexivity.
  - simpl in Hno. apply orb_false_iff in Hno as [Ha Hfirst].
    simpl. rewrite Ha. change (String LF rest) with (nl ++ rest).
    now rewrite (IH Hfirst).
Qed.

Lemma capitalize_firstUpper {D : Type} `{Collaborators D} (s : string) :
  capitalize s = firstUpper s.
Proof.
  destruct s; cbn [capitalize firstUpper charAt0 slice1];
    [apply string_app_empty_r | reflexivity].
Qed.

Lemma truthy_present (o : option string) : truthy o = true <-> present o.
Proof.
  unfold present. split.
  - destruct o as [[| a s] |]; simpl; try discriminate.
    intros _. exists (String a s). split; [reflexivity | discriminate].
  - intros [s [-> Hs]]. destruct s; [contradiction | reflexivity].
Qed.

(* ===================================================================== *)
(** ** Properties of the help text                                       *)
(* ===================================================================== *)

Section Properties.

Context {D : Type} `{Colors} `{Collaborators D}.

Implicit Types (this : HelpGenerator D) (c command : BaseCommand D).

Lemma label_starts_with_newline this (lbl : string) :
  exists rest, label this lbl = String LF rest.
Proof. unfold label. rewrite nl_app. eauto. Qed.

Lemma labelled_not_empty this (lbl body : string) :
  label this lbl ++ body <> "".
Proof.
  destruct (label_starts_with_newline this lbl) as [rest ->]. discriminate.
Qed.

(** The help text is the concatenation of the six sections and a final
    line feed. *)
Lemma generateHelp_sections this :
  generateHelp this
  = generateHeader this ++ generateDescription this
    ++ generateOptions this ++ generateCommands this
    ++ generateEnvironmentVariables this ++ generateExamples this ++ nl.
Proof.
  unfold generateHelp. cbn zeta. simpl append at 1.
  now rewrite !string_app_assoc.
Qed.

(** A section that is rendered is its label followed by its table. *)
Lemma generateOptions_present this :
  getOptions (cmd this) false <> [] ->
  generateOptions this = label this "Options" ++ toString (optionsTable this).
Proof.
  unfold generateOptions. destruct (getOptions (cmd this) false);
    [contradiction | reflexivity].
Qed.

Lemma generateCommands_present this :
  getCommands (cmd this) false <> [] ->
  generateCommands this
  = label this "Commands" ++ toString (commandsTable this).
Proof.
  unfold generateCommands. destruct (getCommands (cmd this) false);
    [contradiction | reflexivity].
Qed.

Lemma generateExamples_present this :
  getExamples (cmd this) <> [] ->
  generateExamples this
  = label this "Examples" ++ toString (examplesTable this).
Proof.
  unfold generateExamples. destruct (getExamples (cmd this));
    [contradiction | reflexivity].
Qed.

(** C1. The hint string of an option is made of the hints "required",
    "Default: " with the formatted default, "depends: " with the
    dependency names joined by ", " and "conflicts: " with the conflict
    names joined by ", ", in this order, each present on its own condition
    (required; default not undefined; dependency list not empty; conflict
    list not empty); some hint gives "(" hints joined by ", " ")", no hint
    gives the empty string.  The defaults 0, false and the empty string are
    defined, and the option that is required, has default 0, depends on
    foo and conflicts with bar gives, colours disabled,
    "(required, Default: <0 formatted>, depends: foo, conflicts: bar)". *)
Theorem generateHints_in_fixed_order :
  (forall this (option : IOption.t),
      generateHints this option = renderHints (hintsInOrder option))
  /\ (isDefined (JNumber 0) = true /\ isDefined (JBool false) = true
      /\ isDefined (JString "") = true)
  /\ (forall this,
         @generateHints D (ansiColors false) _ this portOption
         = "(required, Default: " ++ format [JNumber 0]
           ++ ", depends: foo, conflicts: bar)").
Proof.
  split; [| split; [repeat split |]].
  - intros this [fl ds td rq df dp cf].
    unfold generateHints, hintsInOrder, renderHints, pushIf; cbn [IOption.required
      IOption.default IOption.depends IOption.conflicts isTrue].
    destruct rq as [[|] |], df, dp as [[| d dp] |], cf as [[| c cf] |];
      reflexivity.
  - intros this. cbn. rewrite !string_app_assoc. reflexivity.
Qed.

(** C2. A section is appended only when its data is not empty: the
    Description, Options, Commands, Environment variables and Examples
    sections are the empty string exactly when the description, the
    visible options, the visible sub-commands, the environment variables
    and the examples are empty, and the help text is the concatenation of
    the header, these five sections and a line feed, so that an omitted
    section leaves neither a label nor a blank line. *)
Theorem sections_appended_only_when_nonempty this :
  (generateDescription this = "" <-> getDescription (cmd this) = "")
  /\ (generateOptions this = "" <-> getOptions (cmd this) false = [])
  /\ (generateCommands this = "" <-> getCommands (cmd this) false = [])
  /\ (generateEnvironmentVariables this = ""
      <-> getEnvVars (cmd this) false = [])
  /\ (generateExamples this = "" <-> getExamples (cmd this) = [])
  /\ generateHelp this
     = generateHeader this ++ generateDescription this
       ++ generateOptions this ++ generateCommands this
       ++ generateEnvironmentVariables this ++ generateExamples this ++ nl.
Proof.
  split_conj.
  - unfold generateDescription.
    destruct (getDescription (cmd this)); cbn [truthyString negb];
      [tauto |].
    split; [intros E; destruct (labelled_not_empty E) | discriminate].
  - unfold generateOptions.
    destruct (getOptions (cmd this) false); [tauto |].
    split; [intros E; destruct (labelled_not_empty E) | discriminate].
  - unfold generateCommands.
    destruct (getCommands (cmd this) false); [tauto |].
    split; [intros E; destruct (labelled_not_empty E) | discriminate].
  - unfold generateEnvironmentVariables.
    destruct (getEnvVars (cmd this) false); [tauto |].
    split; [intros E; destruct (labelled_not_empty E) | discriminate].
  - unfold generateExamples.
    destruct (getExamples (cmd this)); [tauto |].
    split; [intros E; destruct (labelled_not_empty E) | discriminate].
  - apply generateHelp_sections.
Qed.

(** C9. The help text begins with a line feed and ends with a line feed,
    whatever sections it has.  The first comes from the header: the header
    is always the first part of the text and is itself a line feed followed
    by the rendered header table.  The last is appended after the last
    section: the text is the six sections, in their order, followed by a
    line feed. *)
Theorem generate_begins_and_ends_with_newline c :
  generateHeader (new c) = String LF (toString (headerTable (new c)))
  /\ (exists rest, generate c = generateHeader (new c) ++ rest)
  /\ (exists rest,
         generate c = String LF (toString (headerTable (new c)) ++ rest))
  /\ generate c
     = (generateHeader (new c) ++ generateDescription (new c)
        ++ generateOptions (new c) ++ generateCommands (new c)
        ++ generateEnvironmentVariables (new c) ++ generateExamples (new c))
       ++ nl
  /\ (exists front, generate c = front ++ nl).
Proof.
  unfold generate. split_conj.
  - reflexivity.
  - rewrite generateHelp_sections. eauto.
  - rewrite generateHelp_sections. unfold generateHeader.
    rewrite nl_app. cbn [append]. eauto.
  - rewrite generateHelp_sections. now rewrite !string_app_assoc.
  - unfold generateHelp. cbn zeta. eauto.
Qed.

(** *** Column layouts *)

Lemma optionsHaveTypeDefinitions_Exists (options : list IOption.t) :
  optionsHaveTypeDefinitions options = true
  <-> Exists (fun o => present (IOption.typeDefinition o)) options.
Proof.
  unfold optionsHaveTypeDefinitions.
  rewrite existsb_exists, Exists_exists.
  split; intros [o [Hin Ho]]; exists o; split; trivial;
    now apply truthy_present.
Qed.

Lemma commandsHaveTypeDefinitions_Exists (commands : list (BaseCommand D)) :
  commandsHaveTypeDefinitions commands = true
  <-> Exists (fun c => present (getArgsDefinition c)) commands.
Proof.
  unfold commandsHaveTypeDefinitions.
  rewrite existsb_exists, Exists_exists.
  split; intros [c [Hin Hc]]; exists c; split; trivial;
    now apply truthy_present.
Qed.

(** Rows built by one row function all have the length of its rows. *)
Lemma rows_of_length {A : Type} (f : A -> list string) (n m : nat)
      (l : list A) :
  (forall x, List.length (f x) = n) -> l <> [] ->
  (Forall (fun row => List.length row = m) (map f l) <-> n = m).
Proof.
  intros Hf Hl. split.
  - destruct l as [| x l]; [contradiction |].
    intros Hall. simpl in Hall. apply Forall_inv in Hall.
    now rewrite Hf in Hall.
  - intros <-. apply Forall_forall. intros row Hin.
    apply in_map_iff in Hin as [x [<- _]]. apply Hf.
Qed.

Lemma descriptionCell_beforeNewline (description : string) :
  descriptionCell description
  = red (bold "-") ++ " " ++ beforeNewline description.
Proof.
  unfold descriptionCell. now rewrite firstLineOf_beforeNewline.
Qed.

Lemma optionsTable_rows this :
  Table.rows (optionsTable this)
  = if optionsHaveTypeDefinitions (getOptions (cmd this) false)
    then map (optionRowTyped this) (getOptions (cmd this) false)
    else map (optionRow this) (getOptions (cmd this) false).
Proof.
  unfold optionsTable.
  now destruct (optionsHaveTypeDefinitions (getOptions (cmd this) false)).
Qed.

Lemma commandsTable_rows this :
  Table.rows (commandsTable this)
  = if commandsHaveTypeDefinitions (getCommands (cmd this) false)
    then map commandRowTyped (getCommands (cmd this) false)
    else map commandRow (getCommands (cmd this) false).
Proof.
  unfold commandsTable.
  now destruct (commandsHaveTypeDefinitions (getCommands (cmd this) false)).
Qed.

(** C3. The rows of the Options table are (flags, highlighted type
    definition, "- " and the first line of the description, hints) when
    some visible option carries a type definition and (flags, "- " and the
    first line, hints) otherwise; the rows of the Commands table are (name
    and aliases joined by ", ", highlighted arguments definition, "- " and
    the first line of the description) when some visible sub-command has an
    arguments definition and (names, "- " and the first line) otherwise.
    So a rendered Options table has four columns exactly when some option
    carries a type definition and three exactly when none does, and a
    rendered Commands table three and two. *)
Theorem options_and_commands_columns this :
  (Exists (fun o => present (IOption.typeDefinition o))
          (getOptions (cmd this) false) ->
   Table.rows (optionsTable this)
   = map (fun o =>
            [ join ", " (map blue (splitFlags (IOption.flags o)));
              highlightArguments (orEmpty (IOption.typeDefinition o));
              red (bold "-") ++ " " ++ beforeNewline (IOption.description o);
              generateHints this o ])
         (getOptions (cmd this) false))
  /\ (~ Exists (fun o => present (IOption.typeDefinition o))
               (getOptions (cmd this) false) ->
      Table.rows (optionsTable this)
      = map (fun o =>
               [ join ", " (map blue (splitFlags (IOption.flags o)));
                 red (bold "-") ++ " "
                 ++ beforeNewline (IOption.description o);
                 generateHints this o ])
            (getOptions (cmd this) false))
  /\ (Exists (fun c => present (getArgsDefinition c))
             (getCommands (cmd this) false) ->
      Table.rows (commandsTable this)
      = map (fun c =>
               [ join ", " (map blue (getName c :: getAliases c));
                 highlightArguments (orEmpty (getArgsDefinition c));
                 red (bold "-") ++ " " ++ beforeNewline (getDescription c) ])
            (getCommands (cmd this) false))
  /\ (~ Exists (fun c => present (getArgsDefinition c))
               (getCommands (cmd this) false) ->
      Table.rows (commandsTable this)
      = map (fun c =>
               [ join ", " (map blue (getName c :: getAliases c));
                 red (bold "-") ++ " " ++ beforeNewline (getDescription c) ])
            (getCommands (cmd this) false))
  /\ (getOptions (cmd this) false <> [] ->
      (Exists (fun o => present (IOption.typeDefinition o))
              (getOptions (cmd this) false)
       <-> Forall (fun row => List.length row = 4)
                  (Table.rows (optionsTable this)))
      /\ (~ Exists (fun o => present (IOption.typeDefinition o))
                   (getOptions (cmd this) false)
          <-> Forall (fun row => List.length row = 3)
                     (Table.rows (optionsTable this))))
  /\ (getCommands (cmd this) false <> [] ->
      (Exists (fun c => present (getArgsDefinition c))
              (getCommands (cmd this) false)
       <-> Forall (fun row => List.length row = 3)
                  (Table.rows (commandsTable this)))
      /\ (~ Exists (fun c => present (getArgsDefinition c))
                   (getCommands (cmd this) false)
          <-> Forall (fun row => List.length row = 2)
                     (Table.rows (commandsTable this)))).
Proof.
  rewrite optionsTable_rows, commandsTable_rows.
  rewrite <- optionsHaveTypeDefinitions_Exists.
  rewrite <- commandsHaveTypeDefinitions_Exists.
  set (options := getOptions (cmd this) false).
  set (commands := getCommands (cmd this) false).
  destruct (optionsHaveTypeDefinitions options);
    destruct (commandsHaveTypeDefinitions commands);
    split_conj;
    try (intros E; exfalso; (discriminate E || now apply E));
    try (intros _; apply map_ext; intros x;
         unfold optionRowTyped, optionRow, commandRowTyped, commandRow,
           flagsCell, namesCell;
         now rewrite descriptionCell_beforeNewline);
    intros Hne;
    split;
    (rewrite rows_of_length;
     [| intros x;
        unfold optionRowTyped, optionRow, commandRowTyped, commandRow;
        cbn [List.length]; reflexivity
      | exact Hne]);
    split; try discriminate; try reflexivity; try tauto;
    intros E; exfalso; (discriminate E || now apply E).
Qed.

(** C4. When the description of an option or of a sub-command has line
    feeds, the description cell of its row, in either layout of the Options
    and of the Commands table, is "- " followed by the text before the
    first line feed; the later lines do not appear. *)
Theorem description_cell_keeps_first_line (first rest : string) :
  hasNewline first = false ->
  (forall this (option : IOption.t),
      IOption.description option = first ++ nl ++ rest ->
      nth 2 (optionRowTyped this option) "" = red (bold "-") ++ " " ++ first
      /\ nth 1 (optionRow this option) "" = red (bold "-") ++ " " ++ first)
  /\ (forall command,
         getDescription command = first ++ nl ++ rest ->
         nth 2 (commandRowTyped command) "" = red (bold "-") ++ " " ++ first
         /\ nth 1 (commandRow command) "" = red (bold "-") ++ " " ++ first).
Proof.
  intros Hfirst.
  assert (Hcell : descriptionCell (first ++ nl ++ rest)
                  = red (bold "-") ++ " " ++ first).
  { rewrite descriptionCell_beforeNewline.
    now rewrite beforeNewline_first_line. }
  split.
  - intros this option Hd. cbn [optionRowTyped optionRow nth].
    now rewrite Hd.
  - intros command Hd. cbn [commandRowTyped commandRow nth].
    now rewrite Hd.
Qed.

(** X15. The help text depends on the answers of the command to the eight
    queries that generate makes (name, arguments definition, version,
    description, visible options, visible sub-commands, environment
    variables, examples) and on nothing else of the command: two commands
    that answer them alike get the same text, whatever their aliases and
    their hidden options, sub-commands and environment variables. *)
Theorem generate_depends_only_on_the_queries c c' :
  getName c = getName c' ->
  getArgsDefinition c = getArgsDefinition c' ->
  getVersion c = getVersion c' ->
  getDescription c = getDescription c' ->
  getOptions c false = getOptions c' false ->
  getCommands c false = getCommands c' false ->
  getEnvVars c false = getEnvVars c' false ->
  getExamples c = getExamples c' ->
  generate c = generate c'.
Proof.
  intros Hname Hargs Hversion Hdescription Hoptions Hcommands Henv Hexamples.
  unfold generate, generateHelp, generateHeader, headerTable,
    generateDescription, descriptionTable, generateOptions, optionsTable,
    generateCommands, commandsTable, generateEnvironmentVariables,
    envVarsTable, generateExamples, examplesTable, label, line,
    optionRowTyped, optionRow, generateHints.
  cbn [cmd indent new].
  now rewrite Hname, Hargs, Hversion, Hdescription, Hoptions, Hcommands,
    Henv, Hexamples.
Qed.

(** C6. A command with a non-empty description gets the Description
    section: its label followed by a table of one row with one cell, the
    description, of maximum cell width 140. *)
Theorem description_section_single_cell_140 this :
  getDescription (cmd this) <> "" ->
  generateDescription this
  = label this "Description" ++ toString (descriptionTable this)
  /\ Table.rows (descriptionTable this) = [[getDescription (cmd this)]]
  /\ Table.getMaxCellWidth (descriptionTable this) = Some (Table.all 140).
Proof.
  intros Hne. split_conj; try reflexivity.
  unfold generateDescription.
  destruct (getDescription (cmd this)); [contradiction | reflexivity].
Qed.

(** C8. The header is always part of the help text.  It is a line feed
    followed by a table of exactly two rows: "Usage:" with the name of the
    command followed by its arguments definition, and "Version:" with the
    version prefixed by "v". *)
Theorem header_has_usage_and_version_rows this :
  (exists rest, generateHelp this = generateHeader this ++ rest)
  /\ generateHeader this = nl ++ toString (headerTable this)
  /\ Table.rows (headerTable this)
     = [ [ bold "Usage:";
           magenta (usageText (getName (cmd this))
                              (getArgsDefinition (cmd this))) ];
         [ bold "Version:"; yellow ("v" ++ getVersion (cmd this)) ] ].
Proof.
  split_conj.
  - rewrite generateHelp_sections. eauto.
  - reflexivity.
  - unfold headerTable. cbn [Table.rows Table.padding Table.indent Table.from].
    destruct (getArgsDefinition (cmd this)) as [[| a args] |];
      cbn [truthy truthyString usageText toStr];
      now rewrite ?string_app_empty_r.
Qed.

(** C10. When the arguments definition of the command is absent or empty,
    the Usage cell of the header is the name of the command and nothing
    more; the space after the name is there only with a non-empty
    arguments definition, which follows it. *)
Theorem usage_cell_space_only_before_arguments this :
  (getArgsDefinition (cmd this) = None
   \/ getArgsDefinition (cmd this) = Some "" ->
   hd [] (Table.rows (headerTable this))
   = [bold "Usage:"; magenta (getName (cmd this))])
  /\ (forall args : string,
         getArgsDefinition (cmd this) = Some args -> args <> "" ->
         hd [] (Table.rows (headerTable this))
         = [bold "Usage:"; magenta (getName (cmd this) ++ " " ++ args)]).
Proof.
  unfold headerTable.
  cbn [Table.rows Table.padding Table.indent Table.from hd].
  split.
  - intros [-> | ->]; cbn [truthy truthyString];
      now rewrite string_app_empty_r.
  - intros args -> Hne. destruct args; [contradiction | reflexivity].
Qed.

End Properties.

Section ExamplesSection.

Context {D : Type} `{Colors} `{Collaborators D}.

(** C7. Every example gives one row of the Examples table: the name with
    its first character in upper case (the [toUpperCase] of the first
    character, then the other characters) followed by ":", dimmed and bold,
    in the first cell, and a line feed followed by the description in the
    second.  Where [toUpperCase] maps "b" to "B", the example named basic
    with description do the thing gives the row ("Basic:", line feed and
    "do the thing"), and laid out it gives a line that contains "Basic:"
    followed by a line that contains "do the thing", with colours enabled
    or disabled. *)
Theorem examples_rows_name_then_description :
  (forall this : HelpGenerator D,
      Table.rows (examplesTable this)
      = map (fun example =>
               [ dim (bold (firstUpper (IExample.name example) ++ ":"));
                 nl ++ IExample.description example ])
            (getExamples (cmd this)))
  /\ (forall this : HelpGenerator D,
         getExamples (cmd this) <> [] ->
         generateExamples this
         = label this "Examples" ++ toString (examplesTable this))
  /\ (forall this : HelpGenerator D,
         toUpperCase "b" = "B" ->
         getExamples (cmd this) = [IExample.mk "basic" "do the thing"] ->
         Table.rows (examplesTable this)
         = [[dim (bold "Basic:"); nl ++ "do the thing"]])
  /\ (forall (enabled : bool) (fmt : list JsValue -> string)
             (hl : string -> string) (hld : D -> string)
             (upper : string -> string)
             (wordWrap : nat -> string -> list string) (c : BaseCommand D),
         upper "b" = "B" ->
         getExamples c = [IExample.mk "basic" "do the thing"] ->
         @generateExamples D (ansiColors enabled)
           (specCollaborators fmt hl hld upper wordWrap) (new c)
         = @label D (ansiColors enabled)
             (specCollaborators fmt hl hld upper wordWrap) (new c) "Examples"
           ++ ("    "
               ++ style enabled "2" "22" (style enabled "1" "22" "Basic:")
               ++ "             ")
           ++ nl ++ "           do the thing")
  /\ (forall (enabled : bool) (fmt : list JsValue -> string)
             (hl : string -> string) (hld : D -> string)
             (upper : string -> string)
             (wordWrap : nat -> string -> list string) (c : BaseCommand D),
         upper "b" = "B" ->
         getExamples c = [IExample.mk "basic" "do the thing"] ->
         lineThenLine
           (@generateExamples D (ansiColors enabled)
              (specCollaborators fmt hl hld upper wordWrap) (new c))
           "Basic:" "do the thing").
Proof.
  split_conj.
  - intros this. unfold examplesTable.
    cbn [Table.rows Table.padding Table.indent Table.maxCellWidth Table.from].
    apply map_ext. intros example. unfold exampleRow.
    now rewrite capitalize_firstUpper.
  - intros this. apply generateExamples_present.
  - intros this Hupper Hbasic. unfold examplesTable.
    cbn [Table.rows Table.padding Table.indent Table.maxCellWidth Table.from].
    rewrite Hbasic. unfold exampleRow, capitalize.
    cbn [map IExample.name IExample.description charAt0 slice1].
    now rewrite Hupper.
  - intros enabled fmt hl hld upper wordWrap c Hupper Hbasic.
    unfold generateExamples, examplesTable. cbn [cmd new].
    rewrite Hbasic. unfold exampleRow, capitalize.
    cbn [map IExample.name IExample.description charAt0 slice1
         toUpperCase specCollaborators].
    rewrite Hupper. f_equal.
    destruct enabled; vm_compute; reflexivity.
  - intros enabled fmt hl hld upper wordWrap c Hupper Hbasic.
    unfold generateExamples, examplesTable, lineThenLine, lines.
    cbn [cmd new]. rewrite Hbasic. unfold exampleRow, capitalize.
    cbn [map IExample.name IExample.description charAt0 slice1
         toUpperCase specCollaborators].
    rewrite Hupper.
    unfold label. rewrite !string_app_assoc.
    rewrite <- (string_app_assoc nl). rewrite split_app_nl.
    set (before := Js.split LF (nl ++ line _ _)).
    exists (List.length before).
    destruct enabled;
      (eexists _, _; split_conj;
       [ rewrite nth_error_app2, Nat.sub_diag by apply Nat.le_refl
       | rewrite nth_error_app2 by apply Nat.le_succ_diag_r;
         replace (S (List.length before) - List.length before) with 1
           by (rewrite Nat.sub_succ_l, Nat.sub_diag; trivial)
       | | ]; vm_compute; reflexivity).
Qed.

End ExamplesSection.

(* ===================================================================== *)
(** ** The properties on the sample commands                             *)
(* ===================================================================== *)

Lemma options_and_commands_columns_witness :
  Table.rows (@optionsTable unit (ansiColors false) plainCollaborators
                (new pkgCommand))
  = [ [ "-p, --port"; "<port:number>"; "- The port to listen on.";
        "(required, Default: 0, depends: foo, conflicts: bar)" ];
      [ "-h, --help"; ""; "- Show this help."; "" ] ]
  /\ Table.rows (@commandsTable unit (ansiColors false) plainCollaborators
                   (new pkgCommand))
     = [ [ "install, i"; "<name:string>"; "- Install a package." ] ].
Proof.
  pose proof (@options_and_commands_columns unit (ansiColors false)
                plainCollaborators (new pkgCommand))
    as [Hoptions [_ [Hcommands _]]].
  split.
  - apply Hoptions. apply Exists_cons_hd.
    exists "<port:number>". split; [reflexivity | discriminate].
  - apply Hcommands. apply Exists_cons_hd.
    exists "<name:string>". split; [reflexivity | discriminate].
Defined.

Lemma description_cell_keeps_first_line_witness :
  nth 2 (@optionRowTyped unit (ansiColors false) plainCollaborators
           (new pkgCommand) portOption) ""
  = "- The port to listen on."
  /\ nth 1 (@commandRow unit (ansiColors false) installCommand) ""
     = "- Install a package.".
Proof.
  split.
  - apply (proj1 (@description_cell_keeps_first_line unit (ansiColors false)
                    plainCollaborators "The port to listen on."
                    "Must be free." eq_refl)
             (new pkgCommand) portOption).
    reflexivity.
  - apply (proj2 (@description_cell_keeps_first_line unit (ansiColors false)
                    plainCollaborators "Install a package."
                    "Fetches it from the registry." eq_refl)
             installCommand).
    reflexivity.
Defined.

Lemma generate_depends_only_on_the_queries_witness :
  getAliases pkgCommand <> getAliases pkgCommand'
  /\ getOptions pkgCommand true <> getOptions pkgCommand' true
  /\ plainGenerate pkgCommand = plainGenerate pkgCommand'.
Proof.
  split; [discriminate | split; [discriminate |]].
  apply (@generate_depends_only_on_the_queries unit (ansiColors false)
           plainCollaborators pkgCommand pkgCommand'); reflexivity.
Defined.

Lemma description_section_single_cell_140_witness :
  @generateDescription unit (ansiColors false) plainCollaborators
    (new pkgCommand)
  = nl ++ "  Description:" ++ nl ++ nl ++ "    A package manager."
  /\ Table.rows (@descriptionTable unit (new pkgCommand))
     = [["A package manager."]]
  /\ Table.getMaxCellWidth (@descriptionTable unit (new pkgCommand))
     = Some (Table.all 140).
Proof.
  apply (@description_section_single_cell_140 unit (ansiColors false)
           plainCollaborators (new pkgCommand)).
  discriminate.
Defined.

Lemma examples_rows_name_then_description_witness :
  @generateExamples unit (ansiColors false) plainCollaborators (new pkgCommand)
  = nl ++ "  Examples:" ++ nl ++ nl
    ++ "    Basic:             " ++ nl
    ++ "           do the thing".
Proof.
  apply (proj1 (proj2 (proj2 (proj2
           (@examples_rows_name_then_description unit (ansiColors false)
              plainCollaborators))))
           false plainFormat (fun s => s) (fun _ => "") asciiUpperCase
           (fun _ cell => Js.split LF cell) pkgCommand);
    reflexivity.
Defined.

Lemma usage_cell_space_only_before_arguments_witness :
  hd [] (Table.rows (@headerTable unit (ansiColors false) (new bareCommand)))
  = ["Usage:"; "bare"]
  /\ hd [] (Table.rows (@headerTable unit (ansiColors false)
                          (new installCommand)))
     = ["Usage:"; "install <name:string>"].
Proof.
  split.
  - apply (proj1 (@usage_cell_space_only_before_arguments unit
                    (ansiColors false) (new bareCommand))).
    right. reflexivity.
  - apply (proj2 (@usage_cell_space_only_before_arguments unit
                    (ansiColors false) (new installCommand))
             "<name:string>"); [reflexivity | discriminate].
Defined.

(** The whole help text of a command with no description, options,
    sub-commands, environment variables or examples: the header alone. *)
Example generate_bare_command :
  plainGenerate bareCommand
  = nl ++ "  Usage:   bare  " ++ nl ++ "  Version: v0.1.0" ++ nl.
Proof. reflexivity. Qed.

(* ===================================================================== *)
(** ** Further properties: the first line of a description               *)
(* ===================================================================== *)

Lemma beforeNewline_no_newline (s : string) :
  hasNewline (beforeNewline s) = false.
Proof.
  induction s as [| a s IH]; simpl; [reflexivity |].
  destruct (Ascii.eqb a LF) eqn:Ha; [reflexivity |].
  simpl. now rewrite Ha, IH.
Qed.

Lemma beforeNewline_single_line (s : string) :
  hasNewline s = false -> beforeNewline s = s.
Proof.
  induction s as [| a s IH]; simpl; [reflexivity |].
  intros Hno. apply orb_false_iff in Hno as [Ha Hs].
  now rewrite Ha, (IH Hs).
Qed.

Lemma beforeNewline_decomposition (s : string) :
  hasNewline s = true -> exists rest, s = beforeNewline s ++ nl ++ rest.
Proof.
  induction s as [| a s IH]; simpl; [discriminate |].
  destruct (Ascii.eqb a LF) eqn:Ha.
  - intros _. exists s. apply Ascii.eqb_eq in Ha. now subst a.
  - simpl. intros Hs. destruct (IH Hs) as [rest Hrest].
    exists rest. cbn [append]. f_equal. exact Hrest.
Qed.

(** X3. The text [description.split( '\n' ).shift()] shown in the Options
    and Commands tables never contains a line feed; a description without
    line feed is shown whole, and a description with one is this text, a
    line feed and a remainder. *)
Theorem first_line_of_description (description : string) :
  hasNewline (firstLineOf description) = false
  /\ (hasNewline description = false -> firstLineOf description = description)
  /\ (hasNewline description = true ->
      exists rest, description = firstLineOf description ++ nl ++ rest).
Proof.
  rewrite firstLineOf_beforeNewline. split_conj.
  - apply beforeNewline_no_newline.
  - apply beforeNewline_single_line.
  - apply beforeNewline_decomposition.
Qed.

(* ===================================================================== *)
(** ** Further properties: the flags of an option                        *)
(* ===================================================================== *)

Lemma splitSep_not_nil (inSep : bool) (s : string) : splitSep inSep s <> [].
Proof.
  destruct s as [| a s]; simpl; [discriminate |].
  destruct (Ascii.eqb a " ").
  - destruct inSep; [| discriminate].
    revert a. induction s as [| b s IH]; intros a; simpl; [discriminate |].
    destruct (Ascii.eqb b " "); [apply (IH b) |].
    destruct (Ascii.eqb b "," && startsWithSpace s); [discriminate |].
    destruct (splitSep false s); discriminate.
  - destruct (Ascii.eqb a "," && startsWithSpace s); [discriminate |].
    destruct (splitSep false s); discriminate.
Qed.

Lemma splitSep_no_space (s : string) :
  forall inSep, Forall (fun piece => hasSpace piece = false) (splitSep inSep s).
Proof.
  induction s as [| a s IH]; intros inSep; simpl.
  - constructor; [reflexivity | constructor].
  - destruct (Ascii.eqb a " ") eqn:Ha.
    + destruct inSep; [apply IH | constructor; [reflexivity | apply IH]].
    + destruct (Ascii.eqb a "," && startsWithSpace s).
      * constructor; [reflexivity | apply IH].
      * specialize (IH false). destruct (splitSep false s) as [| h t].
        -- constructor; [simpl; now rewrite Ha | constructor].
        -- inversion IH as [| ? ? Hh Ht]; subst.
           constructor; [simpl; now rewrite Ha, Hh | exact Ht].
Qed.

Lemma startsWithSpace_app (x z : string) :
  hasSpace x = false -> startsWithSpace z = false ->
  startsWithSpace (x ++ z) = false.
Proof.
  destruct x as [| a x]; simpl; [trivial |].
  intros Hx _. apply orb_false_iff in Hx as [Ha _].
  destruct a as [[|] [|] [|] [|] [|] [|] [|] [|]];
    try reflexivity; discriminate Ha.
Qed.

(** A flag without space stays in one piece. *)
Lemma splitSep_one_piece (x : string) :
  hasSpace x = false -> splitSep false x = [x].
Proof.
  induction x as [| a x IH]; simpl; [reflexivity |].
  intros Hx. apply orb_false_iff in Hx as [Ha Hx]. rewrite Ha.
  assert (Hs : startsWithSpace x = false).
  { rewrite <- (string_app_empty_r x). now apply startsWithSpace_app. }
  rewrite Hs, andb_false_r. now rewrite (IH Hx).
Qed.

(** A flag without space followed by the separator [", "]. *)
Lemma splitSep_piece_then_separator (x r : string) :
  hasSpace x = false ->
  splitSep false (x ++ ", " ++ r) = x :: splitSep true r.
Proof.
  remember (", " ++ r) as z eqn:Hz.
  assert (Hstart : startsWithSpace z = false) by now subst z.
  induction x as [| a x IH]; intros Hx.
  - now subst z.
  - simpl in Hx. apply orb_false_iff in Hx as [Ha Hx].
    cbn [append splitSep]. rewrite Ha.
    rewrite (@startsWithSpace_app x z Hx Hstart), andb_false_r.
    now rewrite (IH Hx).
Qed.

Lemma splitSep_after_separator (r : string) :
  startsWithSpace r = false -> splitSep true r = splitSep false r.
Proof.
  destruct r as [| a r]; [reflexivity |].
  cbn [splitSep startsWithSpace].
  destruct a as [[|] [|] [|] [|] [|] [|] [|] [|]];
    try reflexivity; discriminate.
Qed.

Lemma join_starts_without_space (l : list string) :
  Forall (fun piece => hasSpace piece = false) l ->
  startsWithSpace (join ", " l) = false.
Proof.
  destruct l as [| x [| y t]]; intros Hl.
  - reflexivity.
  - simpl. apply Forall_inv in Hl.
    rewrite <- (string_app_empty_r x). now apply startsWithSpace_app.
  - cbn [join]. apply Forall_inv in Hl. now apply startsWithSpace_app.
Qed.

Lemma splitFlags_join (l : list string) :
  l <> [] -> Forall (fun piece => hasSpace piece = false) l ->
  splitFlags (join ", " l) = l.
Proof.
  unfold splitFlags.
  induction l as [| x l IH]; [contradiction |].
  intros _ Hl. inversion Hl as [| ? ? Hx Hrest]; subst.
  destruct l as [| y t].
  - now apply splitSep_one_piece.
  - change (join ", " (x :: y :: t)) with (x ++ ", " ++ join ", " (y :: t)).
    rewrite (@splitSep_piece_then_separator x _ Hx).
    rewrite splitSep_after_separator
      by now apply join_starts_without_space.
    rewrite IH; [reflexivity | discriminate | exact Hrest].
Qed.

(** X4. [flags.split( /,? +/g )] always gives at least one flag, and no
    flag it gives contains a space. *)
Theorem split_flags_have_no_space (flags : string) :
  splitFlags flags <> []
  /\ Forall (fun flag => hasSpace flag = false) (splitFlags flags).
Proof.
  split; [apply splitSep_not_nil | apply splitSep_no_space].
Qed.

(** X5. Splitting undoes joining: flags without spaces, at least one, joined
    by ", " are split into the same flags. *)
Theorem split_flags_of_joined_flags (flags : list string) :
  flags <> [] ->
  Forall (fun flag => hasSpace flag = false) flags ->
  splitFlags (join ", " flags) = flags.
Proof.
  apply splitFlags_join.
Qed.

Lemma string_app_inv_head (a b c : string) : a ++ b = a ++ c -> b = c.
Proof.
  induction a as [| x a IH]; simpl; intros E; [exact E |].
  injection E as E. now apply IH.
Qed.

Lemma beforeNewline_fixed (s : string) :
  beforeNewline s = s <-> hasNewline s = false.
Proof.
  split.
  - intros E. rewrite <- E. apply beforeNewline_no_newline.
  - apply beforeNewline_single_line.
Qed.

Section FurtherProperties.

Context {D : Type} `{Colors} `{Collaborators D}.

Implicit Types (this : HelpGenerator D) (c command : BaseCommand D).

(** X6. The flags cell is a normal form: when [blue] leaves its argument
    unchanged (colours disabled), the cell of an option is its flags joined
    by ", ", and an option whose flags are written as that cell has the same
    cell. *)
Theorem flags_cell_is_normal_form (option : IOption.t) :
  (forall s, blue s = s) ->
  flagsCell option = join ", " (splitFlags (IOption.flags option))
  /\ flagsCell
       (IOption.mk (flagsCell option) (IOption.description option)
          (IOption.typeDefinition option) (IOption.required option)
          (IOption.default option) (IOption.depends option)
          (IOption.conflicts option))
     = flagsCell option.
Proof.
  intros Hblue. unfold flagsCell. cbn [IOption.flags].
  assert (Hid : forall l : list string, map blue l = l).
  { intros l. induction l as [| x l IH]; simpl; [reflexivity |].
    now rewrite Hblue, IH. }
  rewrite !Hid. split; [reflexivity |].
  rewrite splitFlags_join; [reflexivity | apply splitSep_not_nil
                            | apply splitSep_no_space].
Qed.

(** X7. The hint cell of an option is empty exactly when the option is not
    required, has no defined default and has no dependency and no conflict
    (absent or empty lists); every other hint cell is enclosed in
    parentheses. *)
Theorem hints_empty_or_parenthesised this (option : IOption.t) :
  (generateHints this option = "" <-> noHints option)
  /\ (generateHints this option <> "" ->
      exists body, generateHints this option = "(" ++ body ++ ")").
Proof.
  destruct option as [fl ds td rq df dp cf].
  unfold generateHints, noHints, pushIf.
  cbn [IOption.required IOption.default IOption.depends IOption.conflicts
       isTrue isDefined nonEmptyArray arrayOf].
  destruct rq as [[|] |], df, dp as [[| d dp] |], cf as [[| k cf] |];
    cbn [isDefined List.app];
    (split;
     [ split;
       [ intros E; try discriminate E; intuition congruence
       | intros [[R | R] [F [[P | P] [C | C]]]];
         try discriminate R; try discriminate F; try discriminate P;
         try discriminate C; reflexivity ]
     | intros E; try (now contradiction E); eexists; reflexivity ]).
Qed.

(** X8. Every table the generator builds is a well-formed matrix: all rows
    of one table have the same number of cells, two in the header, one in
    the description, three or four in the options, two or three in the
    commands, three in the environment variables and two in the examples. *)
Theorem section_tables_have_uniform_rows this :
  uniform 2 (headerTable this)
  /\ uniform 1 (descriptionTable this)
  /\ (exists n, (n = 3 \/ n = 4) /\ uniform n (optionsTable this))
  /\ (exists n, (n = 2 \/ n = 3) /\ uniform n (commandsTable this))
  /\ uniform 3 (envVarsTable this)
  /\ uniform 2 (examplesTable this).
Proof.
  assert (Hmap : forall (A : Type) (f : A -> list string) (n : nat)
                        (l : list A),
             (forall x, List.length (f x) = n) ->
             Forall (fun row => List.length row = n) (map f l)).
  { intros A f n l Hf. apply Forall_forall. intros row Hin.
    apply in_map_iff in Hin as [x [<- _]]. apply Hf. }
  unfold uniform. split_conj.
  - repeat constructor.
  - repeat constructor.
  - rewrite optionsTable_rows.
    destruct (optionsHaveTypeDefinitions (getOptions (cmd this) false));
      [exists 4 | exists 3]; (split; [tauto | now apply Hmap]).
  - rewrite commandsTable_rows.
    destruct (commandsHaveTypeDefinitions (getCommands (cmd this) false));
      [exists 3 | exists 2]; (split; [tauto | now apply Hmap]).
  - now apply Hmap.
  - now apply Hmap.
Qed.

(** X9. The per-column settings of the Options and Commands tables follow
    their rows in both layouts: the Options table has one maximum cell width
    per column and one padding per column but the last; the Commands table
    has no maximum cell width and one padding per column, the last
    included. *)
Theorem per_column_settings_fit_the_rows this :
  (exists (n : nat) (widths gaps : list nat),
      Table.getMaxCellWidth (optionsTable this) = Some (Table.each widths)
      /\ Table.getPadding (optionsTable this) = Table.each gaps
      /\ List.length widths = n
      /\ S (List.length gaps) = n
      /\ uniform n (optionsTable this))
  /\ (exists (n : nat) (gaps : list nat),
         Table.getMaxCellWidth (commandsTable this) = None
         /\ Table.getPadding (commandsTable this) = Table.each gaps
         /\ List.length gaps = n
         /\ uniform n (commandsTable this)).
Proof.
  assert (Hmap : forall (A : Type) (f : A -> list string) (n : nat)
                        (l : list A),
             (forall x, List.length (f x) = n) ->
             Forall (fun row => List.length row = n) (map f l)).
  { intros A f n l Hf. apply Forall_forall. intros row Hin.
    apply in_map_iff in Hin as [x [<- _]]. apply Hf. }
  unfold uniform. split.
  - rewrite optionsTable_rows. unfold optionsTable.
    destruct (optionsHaveTypeDefinitions (getOptions (cmd this) false));
      [exists 4 | exists 3]; eexists _, _;
      (split_conj; [reflexivity | reflexivity | reflexivity | reflexivity
                    | now apply Hmap]).
  - rewrite commandsTable_rows. unfold commandsTable.
    destruct (commandsHaveTypeDefinitions (getCommands (cmd this) false));
      [exists 3 | exists 2]; eexists _;
      (split_conj; [reflexivity | reflexivity | reflexivity
                    | now apply Hmap]).
Qed.

Lemma sameSummary_rows (l l' : list (BaseCommand D)) :
  Forall2 sameSummary l l' ->
  map commandRowTyped l = map commandRowTyped l'
  /\ map commandRow l = map commandRow l'
  /\ commandsHaveTypeDefinitions l = commandsHaveTypeDefinitions l'.
Proof.
  induction 1 as [| k k' l l' [Hn [Ha [Hd Hs]]] _ [IHt [IHr IHb]]].
  - repeat split.
  - unfold commandsHaveTypeDefinitions in *.
    cbn [map existsb]. rewrite IHt, IHr, IHb.
    unfold commandRowTyped, commandRow, namesCell.
    now rewrite Hn, Ha, Hd, Hs.
Qed.

(** X10. The Commands section reads of each visible sub-command only its
    name, aliases, arguments definition and description: two commands whose
    visible sub-commands agree on these, one by one, get the same section,
    whatever the versions, options, sub-commands, environment variables and
    examples of the sub-commands. *)
Theorem commands_section_reads_summaries_only c c' :
  Forall2 sameSummary (getCommands c false) (getCommands c' false) ->
  generateCommands (new c) = generateCommands (new c').
Proof.
  intros Hsame. pose proof (sameSummary_rows Hsame) as [Ht [Hr Hb]].
  unfold generateCommands, commandsTable, label, line. cbn [cmd new indent].
  rewrite Ht, Hr, Hb.
  destruct Hsame; reflexivity.
Qed.

(** X11. The Environment variables table shows a description whole: its
    description cell is "- " followed by the entire description, and it is
    the cell that the Options and Commands tables would show for this
    description exactly when the description has no line feed. *)
Theorem environment_variable_description_is_whole
        (envVar : IEnvVariable.t D) :
  nth 2 (envVarRow envVar) ""
  = red (bold "-") ++ " " ++ IEnvVariable.description envVar
  /\ (nth 2 (envVarRow envVar) ""
      = descriptionCell (IEnvVariable.description envVar)
      <-> hasNewline (IEnvVariable.description envVar) = false).
Proof.
  split; [reflexivity |].
  cbn [envVarRow nth]. rewrite descriptionCell_beforeNewline.
  rewrite <- beforeNewline_fixed. split.
  - intros E. apply string_app_inv_head in E.
    apply string_app_inv_head in E. now symmetry.
  - now intros ->.
Qed.

(** X12. A command without description, visible options, visible
    sub-commands, environment variables and examples gets the header alone:
    a line feed, the header table and a line feed. *)
Theorem help_of_a_bare_command_is_the_header c :
  getDescription c = "" ->
  getOptions c false = [] ->
  getCommands c false = [] ->
  getEnvVars c false = [] ->
  getExamples c = [] ->
  generate c = nl ++ toString (headerTable (new c)) ++ nl.
Proof.
  intros Hdescription Hoptions Hcommands Henv Hexamples.
  unfold generate. rewrite generateHelp_sections.
  unfold generateDescription, generateOptions, generateCommands,
    generateEnvironmentVariables, generateExamples, generateHeader.
  cbn [cmd new].
  rewrite Hdescription, Hoptions, Hcommands, Henv, Hexamples.
  cbn [truthyString negb]. now rewrite string_app_assoc.
Qed.

(** X13. Every section begins on a new line: the header begins with a line
    feed, and each of the five other sections is empty or begins with a line
    feed. *)
Theorem every_section_begins_with_a_line_feed this :
  (exists rest, generateHeader this = String LF rest)
  /\ Forall (fun section =>
               section = "" \/ exists rest, section = String LF rest)
            [ generateDescription this; generateOptions this;
              generateCommands this; generateEnvironmentVariables this;
              generateExamples this ].
Proof.
  split; [unfold generateHeader; rewrite nl_app; eauto |].
  assert (Hlabel : forall lbl body,
             exists rest, label this lbl ++ body = String LF rest).
  { intros lbl body.
    destruct (label_starts_with_newline this lbl) as [rest ->].
    cbn [append]. eauto. }
  apply Forall_forall. intros section Hin. cbn [In] in Hin.
  destruct Hin as [<- | [<- | [<- | [<- | [<- | []]]]]].
  - unfold generateDescription.
    destruct (negb (truthyString (getDescription (cmd this))));
      [now left | right; apply Hlabel].
  - unfold generateOptions.
    destruct (getOptions (cmd this) false); [now left | right; apply Hlabel].
  - unfold generateCommands.
    destruct (getCommands (cmd this) false); [now left | right; apply Hlabel].
  - unfold generateEnvironmentVariables.
    destruct (getEnvVars (cmd this) false); [now left | right; apply Hlabel].
  - unfold generateExamples.
    destruct (getExamples (cmd this)); [now left | right; apply Hlabel].
Qed.

End FurtherProperties.

(* ===================================================================== *)
(** ** Further properties: the separators of flags                       *)
(* ===================================================================== *)

Lemma splitSep_skips_spaces (n : nat) (r : string) :
  splitSep true (Js.repeat " " n ++ r) = splitSep true r.
Proof.
  induction n as [| n IH]; [reflexivity | exact IH].
Qed.

(** Characters that are neither spaces nor commas go to the first piece. *)
Lemma splitSep_plain_prefix (x z h : string) (t : list string) :
  hasSpace x = false -> hasComma x = false ->
  splitSep false z = h :: t ->
  splitSep false (x ++ z) = (x ++ h) :: t.
Proof.
  intros Hspace Hcomma Hz.
  induction x as [| a x IH]; [exact Hz |].
  simpl in Hspace, Hcomma.
  apply orb_false_iff in Hspace as [Ha Hspace].
  apply orb_false_iff in Hcomma as [Hc Hcomma].
  cbn [append splitSep]. rewrite Ha, Hc. cbn [andb].
  now rewrite (IH Hspace Hcomma).
Qed.

(** X14. Flags may be separated by spaces alone or by a comma and spaces, in
    any number: a flag without space and comma, followed by either separator
    and by a text that does not begin with a space, is split off as the
    first flag, and the text is split on its own. *)
Theorem flag_separators_are_equivalent (flag rest : string) (n : nat) :
  hasSpace flag = false -> hasComma flag = false ->
  startsWithSpace rest = false ->
  splitFlags (flag ++ Js.repeat " " (S n) ++ rest) = flag :: splitFlags rest
  /\ splitFlags (flag ++ "," ++ Js.repeat " " (S n) ++ rest)
     = flag :: splitFlags rest.
Proof.
  intros Hspace Hcomma Hrest. unfold splitFlags.
  assert (Htail : splitSep true (Js.repeat " " n ++ rest)
                  = splitSep false rest).
  { rewrite splitSep_skips_spaces. now apply splitSep_after_separator. }
  split.
  - rewrite (@splitSep_plain_prefix flag _ "" (splitSep false rest)
               Hspace Hcomma).
    + now rewrite string_app_empty_r.
    + cbn [Js.repeat append splitSep Ascii.eqb Bool.eqb]. now rewrite Htail.
  - rewrite (@splitSep_plain_prefix flag _ "" (splitSep false rest)
               Hspace Hcomma).
    + now rewrite string_app_empty_r.
    + cbn [Js.repeat append splitSep Ascii.eqb Bool.eqb andb startsWithSpace].
      now rewrite Htail.
Qed.

(* ===================================================================== *)
(** ** The further properties on the sample commands                     *)
(* ===================================================================== *)

Lemma split_flags_of_joined_flags_witness :
  splitFlags (join ", " ["-p"; "--port"]) = ["-p"; "--port"].
Proof.
  apply (@split_flags_of_joined_flags ["-p"; "--port"]).
  - discriminate.
  - repeat constructor.
Defined.

Lemma flags_cell_is_normal_form_witness :
  @flagsCell (ansiColors false) portOption = "-p, --port"
  /\ @flagsCell (ansiColors false)
       (IOption.mk "-p, --port" (IOption.description portOption)
          (Some "<port:number>") (Some true) (JNumber 0)
          (Some ["foo"]) (Some ["bar"]))
     = "-p, --port".
Proof.
  apply (@flags_cell_is_normal_form (ansiColors false) portOption).
  reflexivity.
Defined.

Lemma commands_section_reads_summaries_only_witness :
  getVersion installCommand <> getVersion installCommand'
  /\ getOptions installCommand false <> getOptions installCommand' false
  /\ @generateCommands unit (ansiColors false) plainCollaborators
       (new (parentOf installCommand))
     = @generateCommands unit (ansiColors false) plainCollaborators
         (new (parentOf installCommand')).
Proof.
  split; [discriminate | split; [discriminate |]].
  apply (@commands_section_reads_summaries_only unit (ansiColors false)
           plainCollaborators (parentOf installCommand)
           (parentOf installCommand')).
  repeat constructor.
Defined.

Lemma help_of_a_bare_command_is_the_header_witness :
  plainGenerate bareCommand
  = nl ++ ("  Usage:   bare  " ++ nl ++ "  Version: v0.1.0") ++ nl.
Proof.
  apply (@help_of_a_bare_command_is_the_header unit (ansiColors false)
           plainCollaborators bareCommand); reflexivity.
Defined.

Lemma flag_separators_are_equivalent_witness :
  splitFlags "-h  --help" = ["-h"; "--help"]
  /\ splitFlags "-h,  --help" = ["-h"; "--help"].
Proof.
  apply (@flag_separators_are_equivalent "-h" "--help" 1); reflexivity.
Defined.

(** The environment variable with a description of two lines keeps both,
    where an option shows the first only. *)
Example environment_variable_keeps_both_lines :
  nth 2 (@envVarRow unit (ansiColors false) plainCollaborators homeVariable) ""
  = "- Home directory." ++ nl ++ "Must exist."
  /\ @descriptionCell (ansiColors false)
       (IEnvVariable.description homeVariable)
     = "- Home directory.".
Proof. split; reflexivity. Qed.

(* ===================================================================== *)
(** ** The generator over the store: what it reads and writes            *)
(* ===================================================================== *)

Lemma update_fresh (st : Heap.Store) (l h : list string) (u : Heap.Store) :
  Heap.update (List.length st) l (st ++ h :: u)%list = (st ++ l :: u)%list.
Proof.
  induction st as [| a st IH]; cbn [List.length List.app Heap.update].
  - reflexivity.
  - now rewrite IH.
Qed.

Lemma nth_fresh (st : Heap.Store) (h : list string) (u : Heap.Store) :
  nth (List.length st) (st ++ h :: u)%list [] = h.
Proof. apply nth_middle. Qed.

Lemma deref_old (sigma t x : Heap.Store) (r : Heap.Ref) :
  r < List.length sigma -> nth r ((sigma ++ t) ++ x)%list [] = deref sigma r.
Proof.
  intros Hr. unfold deref. rewrite <- app_assoc. now apply app_nth1.
Qed.

Arguments deref_old : clear implicits.

Lemma deref_prefix (sigma t : Heap.Store) (r : Heap.Ref) :
  r < List.length sigma -> nth r (sigma ++ t)%list [] = deref sigma r.
Proof. intros Hr. unfold deref. now apply app_nth1. Qed.

Arguments deref_prefix : clear implicits.

Lemma bind_eq {A B : Type} (m : Heap.M A) (k : A -> Heap.M B)
      (st st' : Heap.Store) (v : A) :
  m st = (v, st') -> Heap.bind m k st = k v st'.
Proof. intros E. unfold Heap.bind. now rewrite E. Qed.

Arguments bind_eq {A B m} k {st st' v} _.

Lemma push_fresh (st : Heap.Store) (h : list string) (u : Heap.Store)
      (x : string) :
  Heap.push (List.length st) x (st ++ h :: u)%list
  = (S (List.length h), (st ++ (h ++ [x]) :: u)%list).
Proof.
  unfold Heap.push, Heap.bind, Heap.read, Heap.write, Heap.ret.
  now rewrite nth_fresh, update_fresh.
Qed.

Lemma when_push_fresh (st : Heap.Store) (h : list string) (u : Heap.Store)
      (cond : bool) (x : string) :
  Heap.when cond (Heap.push (List.length st) x) (st ++ h :: u)%list
  = (tt, (st ++ pushIf cond x h :: u)%list).
Proof.
  unfold Heap.when, pushIf. destruct cond; [| reflexivity].
  now rewrite (bind_eq _ (push_fresh st h u x)).
Qed.

(** The step of [generateHints] for the dependencies or the conflicts, on a
    store whose array at [length st] is [hints]. *)
Lemma names_step (sigma t : Heap.Store) (h : list string) (u : Heap.Store)
      (red' : string -> string) (lbl : string) (o : option Heap.Ref) :
  (forall r, o = Some r -> r < List.length sigma) ->
  exists u',
    match o with
    | Some names =>
        n <- Heap.length names ;;
        Heap.when (negb (n =? 0)%nat)
          (mapped <- Heap.map red' names ;;
           joined <- Heap.join ", " mapped ;;
           Heap.push (List.length (sigma ++ t)%list) (lbl ++ joined))
    | None => Heap.ret tt
    end ((sigma ++ t) ++ h :: u)%list
    = (tt,
       ((sigma ++ t)
        ++ pushIf (nonEmptyArray (option_map (deref sigma) o))
             (lbl ++ join ", "
                      (map red' (arrayOf (option_map (deref sigma) o))))
             h
        :: u')%list).
Proof.
  intros Hvalid. destruct o as [r |]; [| exists u; reflexivity].
  specialize (Hvalid r eq_refl). cbn [option_map nonEmptyArray arrayOf].
  unfold Heap.length at 1, Heap.read, Heap.bind at 1 2, Heap.ret at 1.
  rewrite (deref_old sigma t _ r Hvalid).
  destruct (deref sigma r) as [| d ds] eqn:Hd.
  - exists u. reflexivity.
  - exists (u ++ [map red' (d :: ds)])%list.
    cbn [List.length Nat.eqb negb Heap.when pushIf nonEmptyArray].
    unfold Heap.map, Heap.join, Heap.read, Heap.alloc, Heap.bind, Heap.ret.
    rewrite (deref_old sigma t _ r Hvalid), Hd.
    rewrite nth_fresh.
    rewrite <- (app_assoc (sigma ++ t)%list (h :: u)).
    cbn [List.app].
    unfold Heap.push, Heap.bind, Heap.read, Heap.write, Heap.ret.
    now rewrite nth_fresh, update_fresh.
Qed.

Arguments names_step : clear implicits.

Lemma hints_result (st : Heap.Store) (h : list string) (u : Heap.Store) :
  (n <- Heap.length (List.length st) ;;
   if negb (n =? 0)%nat
   then joined <- Heap.join ", " (List.length st) ;;
        Heap.ret ("(" ++ joined ++ ")")
   else Heap.ret "") (st ++ h :: u)%list
  = (match h with
     | _ :: _ => "(" ++ join ", " h ++ ")"
     | [] => ""
     end, (st ++ h :: u)%list).
Proof.
  unfold Heap.length, Heap.join, Heap.read, Heap.bind, Heap.ret.
  rewrite nth_fresh. destruct h; [reflexivity |].
  cbn [List.length Nat.eqb negb]. now rewrite nth_fresh.
Qed.

Lemma yields_ret {A : Type} (v : A) (sigma : Heap.Store) :
  yields (Heap.ret v) v sigma.
Proof. intros t. exists []. unfold Heap.ret. now rewrite app_nil_r. Qed.

Lemma yields_bind {A B : Type} (m : Heap.M A) (k : A -> Heap.M B)
      (v : A) (w : B) (sigma : Heap.Store) :
  yields m v sigma -> yields (k v) w sigma -> yields (Heap.bind m k) w sigma.
Proof.
  intros Hm Hk t. destruct (Hm t) as [t1 E1].
  destruct (Hk (t ++ t1)%list) as [t2 E2].
  exists (t1 ++ t2)%list. rewrite (bind_eq _ E1).
  rewrite <- (app_assoc sigma t t1), E2. now rewrite !app_assoc.
Qed.

Lemma yields_forEach {A B : Type} (f : A -> Heap.M B) (g : A -> B)
      (P : A -> Prop) (sigma : Heap.Store) (items : list A) :
  (forall item, P item -> yields (f item) (g item) sigma) ->
  Forall P items ->
  yields (Heap.forEach f items) (map g items) sigma.
Proof.
  intros Hf. induction 1 as [| item rest Hitem _ IH]; cbn [Heap.forEach map].
  - apply yields_ret.
  - apply yields_bind with (v := g item); [now apply Hf |].
    apply yields_bind with (v := map g rest); [exact IH |].
    apply yields_ret.
Qed.

Lemma existsb_map {A B : Type} (f : B -> bool) (g : A -> B) (l : list A) :
  existsb f (map g l) = existsb (fun x => f (g x)) l.
Proof.
  induction l as [| x l IH]; cbn [map existsb]; [reflexivity |].
  now rewrite IH.
Qed.

Section StoreProperties.

Context {D : Type} `{Colors} `{Collaborators D}.

Lemma firstLineH_yields (description : string) (sigma : Heap.Store) :
  yields (firstLineH description) (firstLineOf description) sigma.
Proof.
  intros t. exists [snd (Js.shift (Js.split LF description))].
  unfold firstLineH, Heap.split, Heap.shift, Heap.alloc, Heap.read,
    Heap.write, Heap.bind, Heap.ret.
  now rewrite nth_fresh, update_fresh.
Qed.

Lemma descriptionCellH_yields (description : string) (sigma : Heap.Store) :
  yields (descriptionCellH description) (descriptionCell description) sigma.
Proof.
  unfold descriptionCellH, descriptionCell.
  eapply yields_bind; [apply firstLineH_yields | apply yields_ret].
Qed.

Lemma flagsCellH_yields (option : IOptionH.t) (sigma : Heap.Store) :
  yields (flagsCellH option) (flagsCell (reifyOption sigma option)) sigma.
Proof.
  intros t.
  exists [splitFlags (IOptionH.flags option);
          map blue (splitFlags (IOptionH.flags option))].
  unfold flagsCellH, flagsCell, Heap.splitFlags, Heap.map, Heap.join,
    Heap.alloc, Heap.read, Heap.bind, Heap.ret.
  rewrite !nth_fresh. cbn [reifyOption IOption.flags].
  now rewrite <- app_assoc.
Qed.

Lemma generateHintsH_yields (this : HelpGeneratorH D)
      (this' : HelpGenerator D) (option : IOptionH.t) (sigma : Heap.Store) :
  validOption sigma option ->
  yields (generateHintsH this option)
         (generateHints this' (reifyOption sigma option)) sigma.
Proof.
  intros [Hdepends Hconflicts] t.
  unfold generateHintsH.
  rewrite (bind_eq _ (eq_refl : Heap.alloc [] (sigma ++ t)%list
                                = (List.length (sigma ++ t)%list,
                                   ((sigma ++ t) ++ [[]])%list))).
  rewrite (bind_eq _ (when_push_fresh (sigma ++ t)%list [] [] _ _)).
  rewrite (bind_eq _ (when_push_fresh (sigma ++ t)%list _ [] _ _)).
  destruct (names_step sigma t
              (pushIf (isDefined (IOptionH.default option))
                 (blue (bold "Default: ")
                  ++ blue (format [IOptionH.default option]))
                 (pushIf (isTrue (IOptionH.required option))
                    (yellow "required") []))
              [] red (red (bold "depends: ")) (IOptionH.depends option)
              Hdepends) as [u1 E1].
  rewrite (bind_eq _ E1).
  match type of E1 with _ = (tt, (_ ++ ?h :: _)%list) =>
    destruct (names_step sigma t h u1 red (red (bold "conflicts: "))
                (IOptionH.conflicts option) Hconflicts) as [u2 E2]
  end.
  rewrite (bind_eq _ E2).
  rewrite hints_result.
  eexists (_ :: u2). reflexivity.
Qed.

Lemma optionRowTypedH_yields (this : HelpGeneratorH D)
      (this' : HelpGenerator D) (option : IOptionH.t) (sigma : Heap.Store) :
  validOption sigma option ->
  yields (optionRowTypedH this option)
         (optionRowTyped this' (reifyOption sigma option)) sigma.
Proof.
  intros Hvalid. unfold optionRowTypedH, optionRowTyped.
  eapply yields_bind; [apply flagsCellH_yields |].
  eapply yields_bind; [apply descriptionCellH_yields |].
  eapply yields_bind; [now apply generateHintsH_yields with (this' := this') |].
  apply yields_ret.
Qed.

Lemma optionRowH_yields (this : HelpGeneratorH D)
      (this' : HelpGenerator D) (option : IOptionH.t) (sigma : Heap.Store) :
  validOption sigma option ->
  yields (optionRowH this option)
         (optionRow this' (reifyOption sigma option)) sigma.
Proof.
  intros Hvalid. unfold optionRowH, optionRow.
  eapply yields_bind; [apply flagsCellH_yields |].
  eapply yields_bind; [apply descriptionCellH_yields |].
  eapply yields_bind; [now apply generateHintsH_yields with (this' := this') |].
  apply yields_ret.
Qed.

Lemma namesCellH_yields (command : SubCommandH.t) (sigma : Heap.Store) :
  SubCommandH.getAliases command < List.length sigma ->
  yields (namesCellH command)
         (namesCell (@reifySubCommand D sigma command)) sigma.
Proof.
  intros Hvalid t.
  exists [SubCommandH.getName command
          :: deref sigma (SubCommandH.getAliases command);
          map blue (SubCommandH.getName command
                    :: deref sigma (SubCommandH.getAliases command))].
  unfold namesCellH, namesCell, Heap.spread, Heap.map, Heap.join,
    Heap.alloc, Heap.read, Heap.bind, Heap.ret.
  rewrite (deref_prefix sigma t _ Hvalid).
  rewrite !nth_fresh. cbn [reifySubCommand getName getAliases].
  now rewrite <- app_assoc.
Qed.

Lemma commandRowTypedH_yields (command : SubCommandH.t)
      (sigma : Heap.Store) :
  SubCommandH.getAliases command < List.length sigma ->
  yields (commandRowTypedH command)
         (commandRowTyped (@reifySubCommand D sigma command)) sigma.
Proof.
  intros Hvalid. unfold commandRowTypedH, commandRowTyped.
  eapply yields_bind; [now apply namesCellH_yields |].
  eapply yields_bind; [apply descriptionCellH_yields |].
  apply yields_ret.
Qed.

Lemma commandRowH_yields (command : SubCommandH.t) (sigma : Heap.Store) :
  SubCommandH.getAliases command < List.length sigma ->
  yields (commandRowH command)
         (commandRow (@reifySubCommand D sigma command)) sigma.
Proof.
  intros Hvalid. unfold commandRowH, commandRow.
  eapply yields_bind; [now apply namesCellH_yields |].
  eapply yields_bind; [apply descriptionCellH_yields |].
  apply yields_ret.
Qed.

Lemma envVarRowH_yields (envVar : IEnvVariableH.t D) (sigma : Heap.Store) :
  IEnvVariableH.names envVar < List.length sigma ->
  yields (envVarRowH envVar) (envVarRow (reifyEnvVar sigma envVar)) sigma.
Proof.
  intros Hvalid t.
  exists [map blue (deref sigma (IEnvVariableH.names envVar))].
  unfold envVarRowH, envVarRow, Heap.map, Heap.join, Heap.alloc, Heap.read,
    Heap.bind, Heap.ret.
  rewrite (deref_prefix sigma t _ Hvalid).
  now rewrite nth_fresh.
Qed.

Lemma generateOptionsH_yields (c : CommandH.t D) (sigma : Heap.Store) :
  Forall (validOption sigma) (CommandH.getOptions c false) ->
  yields (generateOptionsH (newH c))
         (generateOptions (new (reify sigma c))) sigma.
Proof.
  intros Hvalid.
  unfold generateOptionsH, generateOptions, optionsTable,
    optionsHaveTypeDefinitions.
  cbn [cmdH newH cmd new reify getOptions indentH indent].
  rewrite existsb_map. cbn [reifyOption IOption.typeDefinition].
  destruct (CommandH.getOptions c false) as [| o options];
    [apply yields_ret |].
  cbn [map]. rewrite !map_map.
  destruct (existsb _ (o :: options)).
  - apply yields_bind
      with (v := map (fun x => optionRowTyped (new (reify sigma c))
                                 (reifyOption sigma x)) (o :: options)).
    + apply yields_forEach with (P := validOption sigma); [| exact Hvalid].
      intros item Hitem. now apply optionRowTypedH_yields.
    + apply yields_ret.
  - apply yields_bind
      with (v := map (fun x => optionRow (new (reify sigma c))
                                 (reifyOption sigma x)) (o :: options)).
    + apply yields_forEach with (P := validOption sigma); [| exact Hvalid].
      intros item Hitem. now apply optionRowH_yields.
    + apply yields_ret.
Qed.

Lemma generateCommandsH_yields (c : CommandH.t D) (sigma : Heap.Store) :
  Forall (fun k => SubCommandH.getAliases k < List.length sigma)
         (CommandH.getCommands c false) ->
  yields (generateCommandsH (newH c))
         (generateCommands (new (reify sigma c))) sigma.
Proof.
  intros Hvalid.
  unfold generateCommandsH, generateCommands, commandsTable,
    commandsHaveTypeDefinitions.
  cbn [cmdH newH cmd new reify getCommands indentH indent].
  rewrite existsb_map. cbn [reifySubCommand getArgsDefinition].
  destruct (CommandH.getCommands c false) as [| k commands];
    [apply yields_ret |].
  cbn [map]. rewrite !map_map.
  destruct (existsb _ (k :: commands)).
  - apply yields_bind
      with (v := map (fun x => commandRowTyped (@reifySubCommand D sigma x))
                     (k :: commands)).
    + apply yields_forEach
        with (P := fun k => SubCommandH.getAliases k < List.length sigma);
        [| exact Hvalid].
      intros item Hitem. now apply commandRowTypedH_yields.
    + apply yields_ret.
  - apply yields_bind
      with (v := map (fun x => commandRow (@reifySubCommand D sigma x))
                     (k :: commands)).
    + apply yields_forEach
        with (P := fun k => SubCommandH.getAliases k < List.length sigma);
        [| exact Hvalid].
      intros item Hitem. now apply commandRowH_yields.
    + apply yields_ret.
Qed.

Lemma generateEnvironmentVariablesH_yields (c : CommandH.t D)
      (sigma : Heap.Store) :
  Forall (fun e => IEnvVariableH.names e < List.length sigma)
         (CommandH.getEnvVars c false) ->
  yields (generateEnvironmentVariablesH (newH c))
         (generateEnvironmentVariables (new (reify sigma c))) sigma.
Proof.
  intros Hvalid.
  unfold generateEnvironmentVariablesH, generateEnvironmentVariables,
    envVarsTable.
  cbn [cmdH newH cmd new reify getEnvVars indentH indent].
  destruct (CommandH.getEnvVars c false) as [| e envVars];
    [apply yields_ret |].
  cbn [map]. rewrite !map_map.
  apply yields_bind
    with (v := map (fun x => envVarRow (reifyEnvVar sigma x)) (e :: envVars)).
  - apply yields_forEach
      with (P := fun e => IEnvVariableH.names e < List.length sigma);
      [| exact Hvalid].
    intros item Hitem. now apply envVarRowH_yields.
  - apply yields_ret.
Qed.

(** The generator over the store returns the text that [generate] gives for
    the command the store holds, and only adds arrays to the store. *)
Lemma generateH_yields (c : CommandH.t D) (sigma : Heap.Store) :
  wellFormed sigma c ->
  yields (generateH c) (generate (reify sigma c)) sigma.
Proof.
  intros [Hoptions [Hcommands HenvVars]].
  unfold generateH, generateHelpH, generate, generateHelp. cbn zeta.
  apply yields_bind with (v := generateHeader (new (reify sigma c)));
    [apply yields_ret |].
  apply yields_bind with (v := generateDescription (new (reify sigma c)));
    [apply yields_ret |].
  apply yields_bind with (v := generateOptions (new (reify sigma c)));
    [now apply generateOptionsH_yields |].
  apply yields_bind with (v := generateCommands (new (reify sigma c)));
    [now apply generateCommandsH_yields |].
  apply yields_bind
    with (v := generateEnvironmentVariables (new (reify sigma c)));
    [now apply generateEnvironmentVariablesH_yields |].
  apply yields_bind with (v := generateExamples (new (reify sigma c)));
    [apply yields_ret |].
  apply yields_ret.
Qed.

(** C5. Calling generate twice on the same command description yields the
    same text both times, and generate has no effect but the text it
    returns.  With the arrays of the command in a store and every [push] and
    [shift] of the source acting on that store: the first call returns the
    text of [generate] for the command; the second call, made on the store
    the first call left, returns the same text; and after each call every
    array the store held before is what it was, so the mutations of the
    generator reach only arrays it created itself. *)
Theorem generate_twice_same_text_store_unchanged
        (c : CommandH.t D) (sigma : Heap.Store) :
  wellFormed sigma c ->
  let first := generateH c sigma in
  let second := generateH c (snd first) in
  fst second = fst first
  /\ fst first = generate (reify sigma c)
  /\ (forall r, r < List.length sigma ->
                deref (snd first) r = deref sigma r)
  /\ (forall r, r < List.length sigma ->
                deref (snd second) r = deref sigma r).
Proof.
  intros Hwf. cbn zeta.
  pose proof (generateH_yields Hwf) as Hyields.
  destruct (Hyields []) as [t1 E1]. rewrite app_nil_r in E1.
  destruct (Hyields t1) as [t2 E2].
  rewrite E1. cbn [fst snd]. rewrite E2. cbn [fst snd].
  split_conj; try reflexivity.
  - intros r Hr. unfold deref at 1. now apply deref_prefix.
  - intros r Hr. unfold deref at 1. now apply deref_old.
Qed.

End StoreProperties.

Lemma generate_twice_same_text_store_unchanged_witness :
  fst (@generateH unit (ansiColors false) plainCollaborators pkgCommandH
         (snd (@generateH unit (ansiColors false) plainCollaborators
                 pkgCommandH pkgStore)))
  = fst (@generateH unit (ansiColors false) plainCollaborators pkgCommandH
           pkgStore)
  /\ fst (@generateH unit (ansiColors false) plainCollaborators pkgCommandH
            pkgStore)
     = plainGenerate pkgCommand
  /\ firstn 5 (snd (@generateH unit (ansiColors false) plainCollaborators
                      pkgCommandH pkgStore))
     = pkgStore
  /\ List.length (snd (@generateH unit (ansiColors false) plainCollaborators
                         pkgCommandH pkgStore))
     = 19.
Proof.
  assert (Hwf : wellFormed pkgStore pkgCommandH).
  { unfold wellFormed, validOption. cbn. split_conj.
    - apply Forall_cons;
        [ split; intros r E; injection E as <-; cbn; lia
        | apply Forall_cons;
          [ split; intros r E; discriminate E | apply Forall_nil ] ].
    - apply Forall_cons; [cbn; lia | apply Forall_nil].
    - apply Forall_cons; [cbn; lia | apply Forall_nil]. }
  destruct (@generate_twice_same_text_store_unchanged unit
              (ansiColors false) plainCollaborators pkgCommandH pkgStore Hwf)
    as [Hsame [Htext _]].
  split_conj.
  - exact Hsame.
  - rewrite Htext. reflexivity.
  - reflexivity.
  - reflexivity.
Defined.

(* ===================================================================== *)
(** ** Further properties: capitalize                                    *)
(* ===================================================================== *)

Lemma upperAscii_idempotent (a : ascii) :
  upperAscii (upperAscii a) = upperAscii a.
Proof.
  destruct a as [[|] [|] [|] [|] [|] [|] [|] [|]]; reflexivity.
Qed.

Section Capitalize.

Context {D : Type} `{Collaborators D}.

(** X2. [capitalize] is idempotent whenever [toUpperCase] maps the empty
    string to itself and every character to a text that is not empty and
    whose first character it leaves unchanged: a capitalized name is then
    not changed by capitalizing it again, also when the first character
    becomes several characters. *)
Theorem capitalize_idempotent (name : string) :
  toUpperCase "" = "" ->
  (forall a : ascii,
      exists (u : ascii) (rest : string),
        toUpperCase (String a "") = String u rest
        /\ toUpperCase (String u "") = String u "") ->
  capitalize (capitalize name) = capitalize name.
Proof.
  intros Hempty Hupper. unfold capitalize.
  destruct name as [| a name]; cbn [charAt0 slice1].
  - rewrite Hempty. cbn [append charAt0 slice1]. now rewrite Hempty.
  - destruct (Hupper a) as [u [rest [Ha Hu]]].
    rewrite Ha. cbn [append charAt0 slice1]. now rewrite Hu.
Qed.

End Capitalize.

Lemma capitalize_idempotent_witness :
  @capitalize unit plainCollaborators
    (@capitalize unit plainCollaborators "basic")
  = @capitalize unit plainCollaborators "basic".
Proof.
  apply (@capitalize_idempotent unit plainCollaborators "basic").
  - reflexivity.
  - intros a. exists (upperAscii a), "". split; [reflexivity |].
    cbn [toUpperCase plainCollaborators specCollaborators asciiUpperCase].
    now rewrite upperAscii_idempotent.
Defined.
